(** * OTF project: the MAPCOMPOSITION service

    A shallow embedding of [MapComposition.executeRequest]
    (src/filters/map_composition.py) and the properties of the handler:
    parameter validation, the removal of an overwritten project file, the
    layer loop, and the name-keyed reconciliation of incoming layers with
    the layers of the project.

    Conventions of the embedding.
    - Request parameters, paths and names are [string]s of 8-bit characters,
      the UTF-8 form of the Python strings.  Splitting at [';'], looking for
      ['/'] and ['.'] and comparing strings agree on that form.  [str.upper]
      is Unicode-aware: it is a parameter of the handler.
    - The file system is a finite map from paths to what is there, a file
      or a directory, together with the paths the process may not remove.
      [os.path.exists] holds of files and of directories; [os.remove]
      raises on a directory and on a path it may not remove.
    - [QgsProject.instance()] is one project object shared by all requests:
      it is part of the world the handler transforms.
    - The layer registry of a project is a list of layers without repeated
      ids, in insertion order.
    - The module needs Python 3 (the annotations of lines 41 and 64), where
      [QgsProject.mapLayers()] is a [dict] and a [dict] has no attribute
      [itervalues]: line 246 raises [AttributeError] whenever it is reached.
      Lines 248-273 (the service lists, [project.write()], the legends, the
      removal of companion style files and the answer 200) are never
      executed and have no counterpart here.
    - [QgsMessageLog.logMessage] calls are diagnostics and are left out.
    - The helpers of the repository's [tools] module ([validate_source_uri],
      [is_file_path], [layer_from_source]) are not part of the sources at
      hand: the handler is parameterised by them. *)

From Stdlib Require Import ZArith Ascii String.
From stdpp Require Import base option list gmap strings.

Local Open Scope string_scope.
Local Open Scope list_scope.
Local Open Scope Z_scope.

(** ** Strings as the handler uses them *)

Module Str.

(** [s.split(sep)] for a one-character separator: never the empty list. *)
Fixpoint split (sep : ascii) (s : string) : list string :=
  match s with
  | EmptyString => [EmptyString]
  | String c r =>
      if Ascii.eqb c sep then EmptyString :: split sep r
      else match split sep r with
           | h :: t => String c h :: t
           | [] => [String c EmptyString]
           end
  end.

(** [s.rfind(c)]: the index of the last occurrence of [c], or -1. *)
Fixpoint rfind (c : ascii) (s : string) : Z :=
  match s with
  | EmptyString => -1
  | String a r =>
      let i := rfind c r in
      if 0 <=? i then i + 1
      else if Ascii.eqb a c then 0 else -1
  end.

(** [s[:i]] and [s[i:]] for [0 <= i]. *)
Definition slice_to (i : Z) (s : string) : string :=
  String.substring 0 (Z.to_nat i) s.
Definition slice_from (i : Z) (s : string) : string :=
  String.substring (Z.to_nat i) (String.length s - Z.to_nat i) s.

(** [s[i]], as an option. *)
Definition char_at (i : Z) (s : string) : option ascii :=
  if i <? 0 then None else String.get (Z.to_nat i) s.

(** [posixpath.basename]: what follows the last slash. *)
Definition basename (p : string) : string :=
  slice_from (rfind "/"%char p + 1) p.

(** The loop of [genericpath._splitext]: is there a character other than
    a dot at an index in [[from, from + n)]? *)
Fixpoint has_non_dot (p : string) (from : Z) (n : nat) : bool :=
  match n with
  | O => false
  | S n' =>
      match char_at from p with
      | Some c => if Ascii.eqb c "."%char then has_non_dot p (from + 1) n'
                  else true
      | None => has_non_dot p (from + 1) n'
      end
  end.

(** [posixpath.splitext]: the extension starts at the last dot of the last
    path component, leading dots of that component apart. *)
Definition splitext (p : string) : string * string :=
  let sepIndex := rfind "/"%char p in
  let dotIndex := rfind "."%char p in
  if (sepIndex <? dotIndex)
     && has_non_dot p (sepIndex + 1) (Z.to_nat (dotIndex - (sepIndex + 1)))
  then (slice_to dotIndex p, slice_from dotIndex p)
  else (p, EmptyString).

(** Truth value of [params.get(key)]: a present, non-empty string. *)
Definition truthy (o : option string) : bool :=
  match o with
  | Some s => negb (String.eqb s EmptyString)
  | None => false
  end.

End Str.

(** ** Layers, projects and the file system *)

Inductive LayerKind := RasterLayer | VectorLayer | OtherLayer.

(** What the handler observes of a [QgsMapLayer]: [id()], [name()],
    [source()], its class, [isValid()], the style names held by its
    [styleManager()], and the two strings that line 187 formats,
    [str(layer)] and [str(type(layer))]. *)
Record Layer := mkLayer {
  layer_id : string;
  layer_name : string;
  layer_source : string;
  layer_kind : LayerKind;
  isValid : bool;
  styles : list string;
  printed : string;
  type_printed : string
}.

(** Values stored by [writeEntry]: a number or a list of strings. *)
Inductive Value := VInt (n : Z) | VList (l : list string).

(** A [QgsProject]: file name, layer registry and property entries, the
    latter keyed by scope and key. *)
Record Project := mkProject {
  fileName : string;
  mapLayers : list Layer;
  entries : gmap (string * string) Value
}.

(** What is at a path: a project file, another file, or a directory. *)
Inductive File :=
| ProjectFile (p : Project)
| DataFile
| Directory.

Record Response := mkResponse {
  headers : gmap string string;
  statusCode : option Z;
  body : list string
}.

(** Effects on the outside world, in the order they happen. *)
Inductive Event :=
| Removed (path : string)
| ProjectRead (path : string).

Record World := mkWorld {
  files : gmap string File;
  locked : gset string;
  instance : Project;
  response : Response;
  trace : list Event
}.

(** [OSError] stands for the exceptions of [os.remove]
    ([IsADirectoryError], [PermissionError], [FileNotFoundError]). *)
Inductive Exception := ValueError | OSError | AttributeError.

(** How a call of the handler ends. *)
Inductive Outcome :=
| Returned (w : World)
| Raised (e : Exception) (w : World).

Definition world_of (o : Outcome) : World :=
  match o with Returned w | Raised _ w => w end.

Definition returned_b (o : Outcome) : bool :=
  match o with Returned _ => true | Raised _ _ => false end.

Definition exception_of (o : Outcome) : option Exception :=
  match o with Returned _ => None | Raised e _ => Some e end.

#[global] Instance LayerKind_eq_dec : EqDecision LayerKind.
Proof. solve_decision. Defined.

(** *** The style manager *)

(** [QgsMapLayerStyleManager.renameStyle]: refused when the old name is
    unknown or the new one is taken. *)
Definition renameStyle (name newName : string) (l : Layer) : Layer :=
  if bool_decide (name ∈ styles l) && negb (bool_decide (newName ∈ styles l))
  then mkLayer (layer_id l) (layer_name l) (layer_source l) (layer_kind l)
         (isValid l)
         ((λ s, if bool_decide (s = name) then newName else s) <$> styles l)
         (printed l) (type_printed l)
  else l.

(** *** Project operations *)

Definition empty_project : Project := mkProject "" [] ∅.

Definition setFileName (path : string) (p : Project) : Project :=
  mkProject path (mapLayers p) (entries p).

Definition layer_ids (ls : list Layer) : list string := layer_id <$> ls.

(** A layer whose id is already registered is not stored again. *)
Definition addMapLayer (l : Layer) (p : Project) : Project :=
  if bool_decide (layer_id l ∈ layer_ids (mapLayers p)) then p
  else mkProject (fileName p) (mapLayers p ++ [l]) (entries p).

Definition addMapLayers (ls : list Layer) (p : Project) : Project :=
  foldl (λ q l, addMapLayer l q) p ls.

Definition mapLayersByName (name : string) (p : Project) : list Layer :=
  filter (λ l, layer_name l = name) (mapLayers p).

Definition removeMapLayer (id : string) (p : Project) : Project :=
  mkProject (fileName p) (filter (λ l, layer_id l ≠ id) (mapLayers p))
    (entries p).

Definition removeEntry (scope key : string) (p : Project) : Project :=
  mkProject (fileName p) (mapLayers p) (delete (scope, key) (entries p)).

Definition readEntry (scope key : string) (p : Project) : option Value :=
  entries p !! (scope, key).

(** *** Files *)

(** [os.path.exists]: something is at the path, a file or a directory. *)
Definition file_exists (path : string) (fs : gmap string File) : bool :=
  bool_decide (is_Some (fs !! path)).

(** What [os.remove(path)] needs to go through: a file, not a directory,
    at a path the process may remove. *)
Definition removable (path : string) (w : World) : bool :=
  match files w !! path with
  | Some Directory | None => false
  | Some _ => negb (bool_decide (path ∈ locked w))
  end.

(** [os.remove(path)] *)
Definition remove (path : string) (w : World) : Outcome :=
  if removable path w
  then Returned (mkWorld (delete path (files w)) (locked w) (instance w)
                   (response w) (trace w ++ [Removed path]))
  else Raised OSError w.

(** [project.read()]: the registry and entries of the project file named by
    [fileName]; anything else at the path leaves the project empty. *)
Definition read (fs : gmap string File) (p : Project) : Project :=
  match fs !! fileName p with
  | Some (ProjectFile q) => mkProject (fileName p) (mapLayers q) (entries q)
  | _ => mkProject (fileName p) [] ∅
  end.

(** [list.remove(x)]: drops the first occurrence, [None] for [ValueError]. *)
Fixpoint list_remove (x : string) (l : list string) : option (list string) :=
  match l with
  | [] => None
  | y :: r => if bool_decide (y = x) then Some r
              else (y ::.) <$> list_remove x r
  end.

(** *** The response *)

Definition setHeader (k v : string) (r : Response) : Response :=
  mkResponse (<[k := v]> (headers r)) (statusCode r) (body r).

Definition setStatusCode (c : Z) (r : Response) : Response :=
  mkResponse (headers r) (Some c) (body r).

Definition write (s : string) (r : Response) : Response :=
  mkResponse (headers r) (statusCode r) (body r ++ [s]).

(** [setStatusCode(400)] followed by [write(msg)]. *)
Definition bad_request (msg : string) (r : Response) : Response :=
  write msg (setStatusCode 400 r).

Definition with_response (r : Response) (w : World) : World :=
  mkWorld (files w) (locked w) (instance w) r (trace w).

Definition nl : string := String (ascii_of_nat 10) EmptyString.

(** ** The request handler *)

Section Handler.

(** [str.upper], and the helpers of [tools]: the handler's behaviour is
    stated for any implementation of them.  [layer_from_source] gets,
    besides the source and the name, the rank of the call within the
    request: two calls may build two distinct layer objects from the same
    arguments. *)
Variable upper : string → string.
Variable validate_source_uri : string → bool.
Variable is_file_path : string → bool.
Variable layer_from_source : nat → string → string → option Layer.

(** Lines 87-103: a flag is set by ['1'], ['YES'] or ['TRUE'], once
    upper-cased. *)
Definition parse_flag (v : option string) : bool :=
  if Str.truthy v
  then bool_decide (upper (default "" v) ∈ ["1"; "YES"; "TRUE"])
  else false.

(** Lines 110-115: [SOURCES], or [FILES] when [SOURCES] is missing or
    empty. *)
Definition sources_parameter (params : gmap string string) : option string :=
  if Str.truthy (params !! "SOURCES") then params !! "SOURCES"
  else params !! "FILES".

(** Lines 124-137: the message of the first entry that is refused. *)
Fixpoint validate_sources (fs : gmap string File) (sources : list string)
  : option string :=
  match sources with
  | [] => None
  | layer_source :: rest =>
      if negb (validate_source_uri layer_source)
      then Some ("invalid parameter: " +:+ layer_source +:+ "." +:+ nl)
      else if is_file_path layer_source && negb (file_exists layer_source fs)
      then Some ("file not found : " +:+ layer_source +:+ "." +:+ nl)
      else validate_sources fs rest
  end.

(** Lines 147-149. *)
Definition default_names (sources : list string) : list string :=
  (λ layer_source, (Str.splitext (Str.basename layer_source)).1) <$> sources.

(** Lines 139-149: the names, or [None] when [NAMES] does not match
    [SOURCES] in length. *)
Definition layer_names (params : gmap string string) (sources : list string)
  : option (list string) :=
  if Str.truthy (params !! "NAMES")
  then let names := Str.split ";"%char (default "" (params !! "NAMES")) in
       if bool_decide (length names ≠ length sources) then None
       else Some names
  else Some (default_names sources).

(** The lists filled by the loop of lines 166-198. *)
Record Built := mkBuilt {
  qgis_layers : list Layer;
  vector_layers : list string;
  raster_layers : list string;
  qml_files : list string
}.

Definition qml_of (layer_source : string) : string :=
  (Str.splitext layer_source).1 +:+ ".qml".

(** Line 187: ['Invalid type : {0} - {1}'.format(qgis_layer,
    type(qgis_layer))]. *)
Definition invalid_type (qgis_layer : Layer) : string :=
  "Invalid type : " +:+ printed qgis_layer +:+ " - "
  +:+ type_printed qgis_layer.

(** Lines 166-198, from the [i]-th pair on.  The result is the response
    and the lists, or the response alone when the loop returns early.
    Line 198 renames the style on the layer object that line 190 put into
    [qgis_layers]: the list holds the layer with its style renamed. *)
Fixpoint build_layers (fs : gmap string File) (i : nat)
    (pairs : list (string * string)) (acc : Built) (resp : Response)
  : Response * option Built :=
  match pairs with
  | [] => (resp, Some acc)
  | (name, source) :: rest =>
      match layer_from_source i source name with
      | None => (bad_request ("Invalid format : " +:+ source) resp, None)
      | Some qgis_layer =>
          if negb (isValid qgis_layer)
          then (bad_request ("Layer is not valid : " +:+ source) resp, None)
          else
            let rasters :=
              match layer_kind qgis_layer with
              | RasterLayer => raster_layers acc ++ [layer_id qgis_layer]
              | _ => raster_layers acc
              end in
            let vectors :=
              match layer_kind qgis_layer with
              | VectorLayer => vector_layers acc ++ [layer_id qgis_layer]
              | _ => vector_layers acc
              end in
            let resp' :=
              match layer_kind qgis_layer with
              | OtherLayer => write (invalid_type qgis_layer) resp
              | _ => resp
              end in
            let qmls :=
              if file_exists (qml_of source) fs
              then qml_files acc ++ [qml_of source]
              else qml_files acc in
            build_layers fs (S i) rest
              (mkBuilt (qgis_layers acc ++ [renameStyle "" "default" qgis_layer])
                       vectors rasters qmls)
              resp'
      end
  end.

(** The state of the loop of lines 211-244: the project instance and the
    lists it updates. *)
Record Merge := mkMerge {
  merged : Project;
  project_qgis_layers : list Layer;
  merged_vector : list string;
  merged_raster : list string
}.

(** What the loop decides for one incoming layer. *)
Inductive Action :=
| AddNew
| KeepCurrent (current_layer : Layer)
| ReplaceCurrent (current_layer : Layer).

(** Lines 213-226: look the name up, compare the sources. *)
Definition decide_layer (p : Project) (new_layer : Layer) : Action :=
  match mapLayersByName (layer_name new_layer) p with
  | [] => AddNew
  | current_layer :: _ =>
      if bool_decide (layer_source current_layer = layer_source new_layer)
      then KeepCurrent current_layer
      else ReplaceCurrent current_layer
  end.

(** Lines 212-244, one iteration; [None] when [list.remove] raises. *)
Definition reconcile_step (st : Merge) (new_layer : Layer) : option Merge :=
  match decide_layer (merged st) new_layer with
  | AddNew =>
      Some (mkMerge (addMapLayer new_layer (merged st))
              (project_qgis_layers st ++ [new_layer])
              (merged_vector st) (merged_raster st))
  | KeepCurrent current_layer =>
      let kept := project_qgis_layers st ++ [current_layer] in
      match layer_kind new_layer with
      | VectorLayer =>
          v ← list_remove (layer_id new_layer) (merged_vector st);
          Some (mkMerge (merged st) kept
                  (v ++ [layer_id current_layer]) (merged_raster st))
      | RasterLayer =>
          r ← list_remove (layer_id new_layer) (merged_raster st);
          Some (mkMerge (merged st) kept
                  (merged_vector st) (r ++ [layer_id current_layer]))
      | OtherLayer => Some (mkMerge (merged st) kept
                              (merged_vector st) (merged_raster st))
      end
  | ReplaceCurrent current_layer =>
      let p1 :=
        match layer_kind new_layer with
        | VectorLayer =>
            removeEntry "WFSLayersPrecision" ("/" +:+ layer_id current_layer)
              (merged st)
        | _ => merged st
        end in
      Some (mkMerge
              (addMapLayer new_layer
                 (removeMapLayer (layer_id current_layer) p1))
              (project_qgis_layers st ++ [current_layer])
              (merged_vector st) (merged_raster st))
  end.

(** The loop of lines 211-244: the state reached, and the exception when
    an iteration raised. *)
Fixpoint reconcile (st : Merge) (new_layers : list Layer)
  : Merge * option Exception :=
  match new_layers with
  | [] => (st, None)
  | new_layer :: rest =>
      match reconcile_step st new_layer with
      | Some st' => reconcile st' rest
      | None => (st, Some ValueError)
      end
  end.

(** Lines 200-244. *)
Definition register_layers (overwrite : bool) (p : Project) (b : Built)
  : Merge * option Exception :=
  if overwrite
  then (mkMerge (addMapLayers (qgis_layers b) p) []
          (vector_layers b) (raster_layers b), None)
  else reconcile (mkMerge p [] (vector_layers b) (raster_layers b))
         (qgis_layers b).

(** Status 400 and a message, then [return]. *)
Definition reject (msg : string) (w : World) : Outcome :=
  Returned (with_response (bad_request msg (response w)) w).

(** The request as the handler reads it. *)
Definition service_requested (params : gmap string string) : bool :=
  bool_decide (upper (default "" (params !! "SERVICE")) = "MAPCOMPOSITION").

Definition project_path (params : gmap string string) : string :=
  default "" (params !! "PROJECT").

Definition overwrite (params : gmap string string) : bool :=
  parse_flag (params !! "OVERWRITE").

(** Lines 96-103.  The flag is read at line 266 only, which is never
    reached. *)
Definition remove_qml (params : gmap string string) : bool :=
  parse_flag (params !! "REMOVEQML").

(** Line 123. *)
Definition request_sources (params : gmap string string) : list string :=
  Str.split ";"%char (default "" (sources_parameter params)).

(** Lines 152-155: the shared project instance, named after the project
    file and, unless the request overwrites, read from it. *)
Definition open_project (path : string) (overwrite : bool) (w : World)
  : Project :=
  if file_exists path (files w) && negb overwrite
  then read (files w) (setFileName path (instance w))
  else setFileName path (instance w).

Definition open_trace (path : string) (overwrite : bool) (w : World)
  : list Event :=
  if file_exists path (files w) && negb overwrite
  then trace w ++ [ProjectRead path]
  else trace w.

(** Lines 151-246: the project is set up, the layers are built and
    registered, and line 246 raises: the [dict] that [mapLayers()] returns
    has no attribute [itervalues]. *)
Definition compose (path : string) (overwrite : bool)
    (names sources : list string) (w : World) : Outcome :=
  let project := open_project path overwrite w in
  let tr := open_trace path overwrite w in
  match build_layers (files w) 0 (zip names sources)
          (mkBuilt [] [] [] []) (response w) with
  | (resp, None) => Returned (mkWorld (files w) (locked w) project resp tr)
  | (resp, Some b) =>
      match register_layers overwrite project b with
      | (st, Some e) =>
          Raised e (mkWorld (files w) (locked w) (merged st) resp tr)
      | (st, None) =>
          Raised AttributeError
            (mkWorld (files w) (locked w) (merged st) resp tr)
      end
  end.

(** Lines 77-78 and 105-107: the header is set and, when the request
    overwrites and something is at the project path, [os.remove] is
    called on it. *)
Definition with_header (w : World) : World :=
  with_response
    (setHeader "Content-type" "text/plain; charset=utf-8" (response w)) w.

Definition remove_overwritten (params : gmap string string) (w : World)
  : Outcome :=
  if file_exists (project_path params) (files w) && overwrite params
  then remove (project_path params) w else Returned w.

(** [MapComposition.executeRequest].  The [project] argument is rebound
    to [QgsProject.instance()] before it is used, so it is not an input. *)
Definition executeRequest (params : gmap string string) (w0 : World)
  : Outcome :=
  let w := with_header w0 in
  if service_requested params
  then
    if negb (Str.truthy (params !! "PROJECT"))
    then reject ("PROJECT parameter is missing." +:+ nl) w
    else
      match remove_overwritten params w with
      | Raised e w1 => Raised e w1
      | Returned w1 =>
          if negb (Str.truthy (sources_parameter params))
          then reject ("SOURCES parameter is missing." +:+ nl) w1
          else
            let sources := request_sources params in
            match validate_sources (files w1) sources with
            | Some msg => reject msg w1
            | None =>
                match layer_names params sources with
                | None =>
                    reject "Not same length between NAMES and SOURCES" w1
                | Some names =>
                    compose (project_path params) (overwrite params)
                      names sources w1
                end
            end
      end
  else Returned w.

(** *** What a request goes through

    The world at line 109, the names, the result of the layer loop, the
    project at line 156, the result of the registration and the project
    instance as line 246 finds it, as functions of the request and the
    world. *)
Definition entry (params : gmap string string) (w : World) : World :=
  world_of (remove_overwritten params (with_header w)).

Definition request_names (params : gmap string string) : list string :=
  default [] (layer_names params (request_sources params)).

Definition built (params : gmap string string) (w : World)
  : Response * option Built :=
  build_layers (files (entry params w)) 0
    (zip (request_names params) (request_sources params))
    (mkBuilt [] [] [] []) (response (entry params w)).

Definition incoming (params : gmap string string) (w : World)
  : list Layer :=
  from_option qgis_layers [] (built params w).2.

Definition opened (params : gmap string string) (w : World) : Project :=
  open_project (project_path params) (overwrite params) (entry params w).

Definition registered (params : gmap string string) (w : World)
  : Merge * option Exception :=
  from_option (register_layers (overwrite params) (opened params w))
    (mkMerge (opened params w) [] [] [], None) (built params w).2.

Definition composed (params : gmap string string) (w : World) : Project :=
  merged (registered params w).1.

(** [os.remove] at line 107 raises: the request overwrites and what is at
    the project path is not a file the process may remove. *)
Definition removal_raises (params : gmap string string) (w : World) : bool :=
  file_exists (project_path params) (files w) && overwrite params
  && negb (removable (project_path params) w).

(** The request passes lines 80-149: the service is asked for, the
    project path is given, [os.remove] did not raise and the sources and
    names are accepted. *)
Definition passes_validation (params : gmap string string) (w : World)
  : bool :=
  service_requested params && Str.truthy (params !! "PROJECT")
  && negb (removal_raises params w)
  && Str.truthy (sources_parameter params)
  && bool_decide (validate_sources (files (entry params w))
                    (request_sources params) = None)
  && bool_decide (is_Some (layer_names params (request_sources params))).

End Handler.

(** ** Vocabulary of the properties *)

(** A rejected request: status 400, one more message, the project instance
    as it was. *)
Definition rejected (w w' : World) : Prop :=
  statusCode (response w') = Some 400
  ∧ (∃ msg, body (response w') = body (response w) ++ [msg])
  ∧ instance w' = instance w.

(** No file is created or modified: what is on disk afterwards was there
    before, with the same content. *)
Definition nothing_written (w w' : World) : Prop :=
  ∀ path f, files w' !! path = Some f → files w !! path = Some f.

(** The ids of the vector layers and of the raster layers of a list. *)
Definition vector_ids (ls : list Layer) : list string :=
  layer_id <$> filter (λ l, layer_kind l = VectorLayer) ls.

Definition raster_ids (ls : list Layer) : list string :=
  layer_id <$> filter (λ l, layer_kind l = RasterLayer) ls.

(** *** Reconciliation, on the registry alone *)

(** The decision of lines 213-226 for a registry given as a list. *)
Definition decide_in (existing : list Layer) (new_layer : Layer) : Action :=
  match filter (λ l, layer_name l = layer_name new_layer) existing with
  | [] => AddNew
  | current_layer :: _ =>
      if bool_decide (layer_source current_layer = layer_source new_layer)
      then KeepCurrent current_layer
      else ReplaceCurrent current_layer
  end.

(** The registry after one incoming layer: added, kept, or replaced. *)
Definition update_by_name (existing : list Layer) (new_layer : Layer)
  : list Layer :=
  match decide_in existing new_layer with
  | AddNew => existing ++ [new_layer]
  | KeepCurrent _ => existing
  | ReplaceCurrent current_layer =>
      filter (λ l, layer_id l ≠ layer_id current_layer) existing ++ [new_layer]
  end.

(** The registry after the incoming layers: appended when the request
    overwrites, reconciled by name otherwise. *)
Definition registry_for (overwrite : bool) (existing new_layers : list Layer)
  : list Layer :=
  if overwrite then existing ++ new_layers
  else foldl update_by_name existing new_layers.

(** The reconciliation of one incoming layer in the words of the spec.
    "The existing layer of that name" is the first the registry holds. *)
Inductive Reconciled (existing : list Layer) (new_layer : Layer)
  : list Layer → Prop :=
| reconciled_new :
    (∀ l, l ∈ existing → layer_name l ≠ layer_name new_layer) →
    Reconciled existing new_layer (existing ++ [new_layer])
| reconciled_unchanged before current_layer after :
    existing = before ++ current_layer :: after →
    (∀ l, l ∈ before → layer_name l ≠ layer_name new_layer) →
    layer_name current_layer = layer_name new_layer →
    layer_source current_layer = layer_source new_layer →
    Reconciled existing new_layer existing
| reconciled_changed before current_layer after :
    existing = before ++ current_layer :: after →
    (∀ l, l ∈ before → layer_name l ≠ layer_name new_layer) →
    layer_name current_layer = layer_name new_layer →
    layer_source current_layer ≠ layer_source new_layer →
    Reconciled existing new_layer (before ++ after ++ [new_layer]).

(** Every incoming layer reconciled once, in input order. *)
Inductive ReconciledAll : list Layer → list Layer → list Layer → Prop :=
| reconciled_nil existing : ReconciledAll existing [] existing
| reconciled_cons existing new_layer updated rest final :
    Reconciled existing new_layer updated →
    ReconciledAll updated rest final →
    ReconciledAll existing (new_layer :: rest) final.

(** *** The layer loop and validation *)

(** Lines 170-180: the layer loop refuses a source that gives no layer or
    a layer that is not valid, with a message of its own. *)
Definition refused (built_layer : option Layer) : bool :=
  match built_layer with
  | Some qgis_layer => negb (isValid qgis_layer)
  | None => true
  end.

Definition refusal_message (built_layer : option Layer) (source : string)
  : string :=
  match built_layer with
  | Some _ => "Layer is not valid : " +:+ source
  | None => "Invalid format : " +:+ source
  end.

(** The message of line 129 or of line 135 for a source that validation
    refuses. *)
Definition validation_message (validate_source_uri : string → bool)
    (source : string) : string :=
  if validate_source_uri source
  then "file not found : " +:+ source +:+ "." +:+ nl
  else "invalid parameter: " +:+ source +:+ "." +:+ nl.

(** [sep.join(l)] and the number of occurrences of a character. *)
Fixpoint join (sep : ascii) (l : list string) : string :=
  match l with
  | [] => ""
  | [x] => x
  | x :: rest => x +:+ String sep (join sep rest)
  end.

Fixpoint count_char (c : ascii) (s : string) : nat :=
  match s with
  | EmptyString => 0
  | String a r => (if Ascii.eqb a c then 1 else 0) + count_char c r
  end.

(** The parameters the handler reads. *)
Definition read_parameters : list string :=
  ["SERVICE"; "PROJECT"; "OVERWRITE"; "REMOVEQML"; "SOURCES"; "FILES";
   "NAMES"].

(** ** A concrete setting

    An implementation of the helpers, a small file system and a few
    requests, on which the properties are exercised. *)

Module Demo.

(** [str.upper] on ASCII letters; the requests below are ASCII. *)
Definition upper_ascii (c : ascii) : ascii :=
  let n := N_of_ascii c in
  if ((97 <=? n) && (n <=? 122))%N then ascii_of_N (n - 32) else c.

Fixpoint upper (s : string) : string :=
  match s with
  | EmptyString => EmptyString
  | String c r => String (upper_ascii c) (upper r)
  end.

Definition ends_with (suffix s : string) : bool :=
  bool_decide
    (Str.slice_from (Z.of_nat (String.length s)
                     - Z.of_nat (String.length suffix)) s = suffix).

Definition validate_source_uri (s : string) : bool :=
  negb (String.prefix "?" s).

Definition is_file_path (s : string) : bool := String.prefix "/" s.

Definition stamp (i : nat) : string :=
  String (ascii_of_nat (48 + i)) EmptyString.

Definition layer (kind : LayerKind) (class name source : string) (i : nat)
  : Layer :=
  mkLayer (name +:+ "_" +:+ stamp i) name source kind true [""]
    ("<" +:+ class +:+ ": '" +:+ name +:+ "'>")
    ("<class 'qgis._core." +:+ class +:+ "'>").

(** Shapefiles give vector layers, GeoTIFFs raster layers, meshes layers
    that are neither, anything else no layer; the id is the name and the
    rank of the call. *)
Definition layer_from_source (i : nat) (source name : string)
  : option Layer :=
  if ends_with ".shp" source
  then Some (layer VectorLayer "QgsVectorLayer" name source i)
  else if ends_with ".tif" source
  then Some (layer RasterLayer "QgsRasterLayer" name source i)
  else if ends_with ".2dm" source
  then Some (layer OtherLayer "QgsMeshLayer" name source i)
  else None.

Definition run : gmap string string → World → Outcome :=
  executeRequest upper validate_source_uri is_file_path layer_from_source.

Definition passes : gmap string string → World → bool :=
  passes_validation upper validate_source_uri is_file_path.

Definition no_response : Response := mkResponse ∅ None [].

Definition data : gmap string File :=
  list_to_map
    [("/d", Directory);
     ("/d/a.shp", DataFile); ("/d/a.tif", DataFile); ("/d/b.shp", DataFile);
     ("/d/b2.shp", DataFile); ("/d/c.tif", DataFile); ("/d/x.csv", DataFile);
     ("/d/m.2dm", DataFile);
     ("/d/a.qml", DataFile); ("/d/b.qml", DataFile)].

Definition old_a : Layer :=
  mkLayer "a_old" "a" "/d/a.shp" VectorLayer true ["default"]
    "<QgsVectorLayer: 'a'>" "<class 'qgis._core.QgsVectorLayer'>".
Definition old_b : Layer :=
  mkLayer "b_old" "b" "/d/b.shp" VectorLayer true ["default"]
    "<QgsVectorLayer: 'b'>" "<class 'qgis._core.QgsVectorLayer'>".

Definition old_project : Project :=
  mkProject "/d/p.qgs" [old_a; old_b]
    (list_to_map
       [(("WFSLayers", "/"), VList ["a_old"; "b_old"]);
        (("WFSLayersPrecision", "/a_old"), VInt 8);
        (("WFSLayersPrecision", "/b_old"), VInt 8)]).

(** Data files only, the same with a project file, and the same with a
    project file that may not be removed. *)
Definition fresh : World := mkWorld data ∅ empty_project no_response [].

Definition with_project : World :=
  mkWorld (<["/d/p.qgs" := ProjectFile old_project]> data) ∅ empty_project
    no_response [].

Definition with_locked_project : World :=
  mkWorld (<["/d/p.qgs" := ProjectFile old_project]> data) {["/d/p.qgs"]}
    empty_project no_response [].

(** The world a later request finds: files and project instance as the
    earlier request left them, a response of its own. *)
Definition next (w : World) : World :=
  mkWorld (files w) (locked w) (instance w) no_response (trace w).

Definition other_service : gmap string string :=
  list_to_map [("SERVICE", "WMS"); ("PROJECT", "/d/p.qgs")].

Definition names_mismatch : gmap string string :=
  list_to_map
    [("SERVICE", "MapComposition"); ("PROJECT", "/d/p.qgs");
     ("SOURCES", "/d/a.shp"); ("NAMES", "a;b")].

Definition overwrite_mismatch : gmap string string :=
  <["OVERWRITE" := "true"]> names_mismatch.

(** The project path names a directory. *)
Definition overwrite_directory : gmap string string :=
  list_to_map
    [("SERVICE", "MapComposition"); ("PROJECT", "/d"); ("OVERWRITE", "1");
     ("SOURCES", "/d/a.shp"); ("NAMES", "a;b")].

Definition create : gmap string string :=
  list_to_map
    [("SERVICE", "MapComposition"); ("PROJECT", "/d/p.qgs");
     ("SOURCES", "/d/a.shp;/d/c.tif")].

(** [a] comes with its old source, [b] with a new one, [c] is new. *)
Definition update : gmap string string :=
  list_to_map
    [("SERVICE", "MapComposition"); ("PROJECT", "/d/p.qgs");
     ("SOURCES", "/d/a.shp;/d/b2.shp;/d/c.tif"); ("NAMES", "a;b;c")].

Definition add_raster : gmap string string :=
  list_to_map
    [("SERVICE", "MapComposition"); ("PROJECT", "/d/p.qgs");
     ("SOURCES", "/d/c.tif")].

(** A source that passes validation and gives no layer. *)
Definition unknown_format : gmap string string :=
  list_to_map
    [("SERVICE", "MapComposition"); ("PROJECT", "/d/p.qgs");
     ("SOURCES", "/d/x.csv")].

(** The second source passes validation and gives no layer. *)
Definition second_unknown : gmap string string :=
  list_to_map
    [("SERVICE", "MapComposition"); ("PROJECT", "/d/p.qgs");
     ("SOURCES", "/d/a.shp;/d/x.csv;/d/c.tif")].

(** The second source is a file path with nothing at it, the third one
    is refused as well. *)
Definition missing_file : gmap string string :=
  list_to_map
    [("SERVICE", "MapComposition"); ("PROJECT", "/d/p.qgs");
     ("SOURCES", "/d/a.shp;/d/none.shp;?x")].

Definition overwrite_raster : gmap string string :=
  <["OVERWRITE" := "true"]> add_raster.

(** Two sources, each with a companion style file. *)
Definition remove_styles : gmap string string :=
  list_to_map
    [("SERVICE", "MapComposition"); ("PROJECT", "/d/p.qgs");
     ("SOURCES", "/d/a.shp;/d/b.shp"); ("REMOVEQML", "yes")].

(** [a] and [b] come again, under their names and with their sources. *)
Definition resubmit : gmap string string :=
  list_to_map
    [("SERVICE", "MapComposition"); ("PROJECT", "/d/p.qgs");
     ("SOURCES", "/d/a.shp;/d/b.shp"); ("NAMES", "a;b")].

(** The legacy parameter. *)
Definition legacy : gmap string string :=
  list_to_map
    [("SERVICE", "MapComposition"); ("PROJECT", "/d/p.qgs");
     ("SOURCES", ""); ("NAMES", "a")].

(** A mesh among the sources. *)
Definition with_mesh : gmap string string :=
  list_to_map
    [("SERVICE", "MapComposition"); ("PROJECT", "/d/p.qgs");
     ("SOURCES", "/d/a.shp;/d/m.2dm")].

End Demo.

(** ** Properties *)

(** *** Paths *)

Module StrFacts.

Lemma append_nil_l b : "" +:+ b = b.
Proof. reflexivity. Qed.

Lemma append_cons x a b : String x a +:+ b = String x (a +:+ b).
Proof. reflexivity. Qed.

Lemma length_append a b :
  String.length (a +:+ b) = (String.length a + String.length b)%nat.
Proof.
  induction a as [|c a IH]; [done|].
  rewrite append_cons. simpl. by rewrite IH.
Qed.

Lemma rfind_lower c s : -1 <= Str.rfind c s.
Proof.
  induction s as [|a s IH]; simpl; [lia|].
  destruct (Z.leb_spec 0 (Str.rfind c s)); [lia|].
  destruct (Ascii.eqb a c); lia.
Qed.

(** The last occurrence in a concatenation is the last in the right part
    if there is one, and the last in the left part if not. *)
Lemma rfind_append c a b :
  Str.rfind c (a +:+ b)
  = if 0 <=? Str.rfind c b
    then Z.of_nat (String.length a) + Str.rfind c b
    else Str.rfind c a.
Proof.
  induction a as [|x a IH].
  - change ("" +:+ b) with b. pose proof (rfind_lower c b).
    destruct (Z.leb_spec 0 (Str.rfind c b)); cbn [String.length Str.rfind]; lia.
  - change (String x a +:+ b) with (String x (a +:+ b)).
    cbn [Str.rfind]. rewrite IH.
    destruct (Z.leb_spec 0 (Str.rfind c b)) as [Hb|Hb].
    + destruct (Z.leb_spec 0 (Z.of_nat (String.length a) + Str.rfind c b));
        cbn [String.length]; lia.
    + done.
Qed.

Lemma rfind_cons_other c x s :
  x ≠ c → Str.rfind c s = -1 → Str.rfind c (String x s) = -1.
Proof.
  intros Hx Hs. cbn [Str.rfind]. rewrite Hs. simpl.
  by apply Ascii.eqb_neq in Hx as ->.
Qed.

Lemma rfind_cons_same c s :
  Str.rfind c s = -1 → Str.rfind c (String c s) = 0.
Proof. intros Hs. cbn [Str.rfind]. rewrite Hs. simpl. by rewrite Ascii.eqb_refl. Qed.

Lemma append_assoc a b c : (a +:+ b) +:+ c = a +:+ b +:+ c.
Proof.
  induction a as [|x a IH]; [done|]. rewrite !append_cons. by rewrite IH.
Qed.

Lemma substring_all s : String.substring 0 (String.length s) s = s.
Proof. induction s as [|c s IH]; simpl; [done | by rewrite IH]. Qed.

Lemma substring_append_left a b :
  String.substring 0 (String.length a) (a +:+ b) = a.
Proof.
  induction a as [|c a IH]; [by destruct b|].
  rewrite append_cons. simpl. by rewrite IH.
Qed.

Lemma substring_append_right a b :
  String.substring (String.length a) (String.length b) (a +:+ b) = b.
Proof.
  induction a as [|c a IH]; [apply substring_all|].
  rewrite append_cons. by simpl.
Qed.

Lemma slice_to_append a b : Str.slice_to (Z.of_nat (String.length a)) (a +:+ b) = a.
Proof. unfold Str.slice_to. rewrite Nat2Z.id. apply substring_append_left. Qed.

Lemma slice_from_append a b :
  Str.slice_from (Z.of_nat (String.length a)) (a +:+ b) = b.
Proof.
  unfold Str.slice_from. rewrite Nat2Z.id, length_append.
  replace (String.length a + String.length b - String.length a)%nat
    with (String.length b) by lia.
  apply substring_append_right.
Qed.

Lemma get_append_right a b i :
  String.get (String.length a + i) (a +:+ b) = String.get i b.
Proof.
  induction a as [|c a IH]; [done|]. rewrite append_cons. by simpl.
Qed.

Lemma get_append_left a b i :
  (i < String.length a)%nat → String.get i (a +:+ b) = String.get i a.
Proof.
  revert i. induction a as [|c a IH]; intros i Hi; simpl in Hi; [lia|].
  rewrite append_cons. destruct i; [done|]. simpl. apply IH. lia.
Qed.

(** The loop of [_splitext] finds a character that is not a dot when the
    range holds one. *)
Lemma has_non_dot_true p n : ∀ from i c,
  (i < n)%nat →
  String.get (from + i) p = Some c →
  c ≠ "."%char →
  Str.has_non_dot p (Z.of_nat from) n = true.
Proof.
  induction n as [|n IH]; intros from i c Hi Hget Hc; [lia|].
  simpl. unfold Str.char_at.
  destruct (Z.ltb_spec (Z.of_nat from) 0) as [?|_]; [lia|].
  rewrite Nat2Z.id.
  destruct i as [|i].
  - rewrite Nat.add_0_r in Hget. rewrite Hget.
    by apply Ascii.eqb_neq in Hc as ->.
  - assert (Hnext : Str.has_non_dot p (Z.of_nat (S from)) n = true).
    { apply (IH (S from) i c); [lia | | done].
      by replace (S from + i)%nat with (from + S i)%nat by lia. }
    rewrite Nat2Z.inj_succ in Hnext. unfold Z.succ in Hnext. rewrite Hnext.
    destruct (String.get from p) as [x|]; [by destruct (Ascii.eqb x ".")|done].
Qed.

(** [splitext] on a path made of a prefix that is empty or ends with a
    slash, a stem that is not made of dots and has no slash, a dot, and
    an extension without dot or slash. *)
Lemma splitext_stem_ext pre stem ext i c :
  Str.rfind "/" pre = Z.of_nat (String.length pre) - 1 →
  Str.rfind "/" stem = -1 →
  Str.rfind "/" ext = -1 →
  Str.rfind "." ext = -1 →
  (i < String.length stem)%nat →
  String.get i stem = Some c → c ≠ "."%char →
  Str.splitext (pre +:+ stem +:+ "." +:+ ext)
  = (pre +:+ stem, "." +:+ ext).
Proof.
  intros Hpre Hstem Hext Hdot Hi Hget Hc.
  change ("." +:+ ext) with (String "." ext).
  set (p := pre +:+ stem +:+ String "." ext).
  assert (Hsep : Str.rfind "/" p = Z.of_nat (String.length pre) - 1).
  { unfold p. rewrite !rfind_append.
    by rewrite (rfind_cons_other "/" "." ext), Hstem. }
  assert (Hdotp : Str.rfind "." p
                  = Z.of_nat (String.length pre + String.length stem)).
  { unfold p. rewrite !rfind_append, (rfind_cons_same "." ext) by done.
    change (0 <=? 0) with true. cbv iota.
    destruct (Z.leb_spec 0 (Z.of_nat (String.length stem) + 0)); lia. }
  unfold Str.splitext. fold p. rewrite Hsep, Hdotp.
  destruct (Z.ltb_spec (Z.of_nat (String.length pre) - 1)
              (Z.of_nat (String.length pre + String.length stem))) as [_|?];
    [|lia].
  replace (Z.of_nat (String.length pre) - 1 + 1)
    with (Z.of_nat (String.length pre)) by lia.
  replace (Z.to_nat (Z.of_nat (String.length pre + String.length stem)
                     - Z.of_nat (String.length pre)))
    with (String.length stem) by lia.
  rewrite (has_non_dot_true p (String.length stem) (String.length pre) i c);
    [| done | | done].
  2:{ unfold p. rewrite get_append_right. by rewrite get_append_left. }
  simpl. unfold p. rewrite <- append_assoc, <- length_append.
  by rewrite slice_to_append, slice_from_append.
Qed.

(** [basename] drops a directory prefix. *)
Lemma basename_file dir file :
  Str.rfind "/" file = -1 → Str.basename (dir +:+ "/" +:+ file) = file.
Proof.
  intros Hfile. unfold Str.basename.
  change ("/" +:+ file) with (String "/" file).
  rewrite rfind_append, (rfind_cons_same "/" file) by done. simpl.
  change (String "/" file) with ("/" +:+ file). rewrite <- append_assoc.
  replace (Z.of_nat (String.length dir) + 0 + 1)
    with (Z.of_nat (String.length (dir +:+ "/")))
    by (rewrite length_append; simpl; lia).
  apply slice_from_append.
Qed.

(** X6: the default name of [dir/stem.ext] is [stem], for a stem and an
    extension without slash, the extension without dot, the stem not made
    of dots only. *)
Theorem default_name_of_file dir stem ext i c :
  Str.rfind "/" stem = -1 →
  Str.rfind "/" ext = -1 →
  Str.rfind "." ext = -1 →
  (i < String.length stem)%nat →
  String.get i stem = Some c → c ≠ "."%char →
  default_names [dir +:+ "/" +:+ stem +:+ "." +:+ ext] = [stem].
Proof.
  intros Hstem Hext Hdot Hi Hget Hc. unfold default_names.
  cbn [fmap list_fmap]. rewrite basename_file.
  - pose proof (splitext_stem_ext "" stem ext i c eq_refl
                  Hstem Hext Hdot Hi Hget Hc) as Hs.
    rewrite !append_nil_l in Hs. by rewrite Hs.
  - change ("." +:+ ext) with (String "." ext).
    by rewrite rfind_append, (rfind_cons_other "/" "." ext), Hstem.
Qed.

(** X7: the companion style file of [dir/stem.ext] is [dir/stem.qml]. *)
Theorem qml_of_file dir stem ext i c :
  Str.rfind "/" stem = -1 →
  Str.rfind "/" ext = -1 →
  Str.rfind "." ext = -1 →
  (i < String.length stem)%nat →
  String.get i stem = Some c → c ≠ "."%char →
  qml_of (dir +:+ "/" +:+ stem +:+ "." +:+ ext)
  = dir +:+ "/" +:+ stem +:+ ".qml".
Proof.
  intros Hstem Hext Hdot Hi Hget Hc. unfold qml_of.
  rewrite <- (append_assoc dir "/").
  rewrite (splitext_stem_ext (dir +:+ "/") stem ext i c); try done.
  - cbn [fst]. by rewrite !append_assoc.
  - change "/" with (String "/" "") at 1.
    rewrite rfind_append, (rfind_cons_same "/" "") by done.
    rewrite length_append. simpl. lia.
Qed.
End StrFacts.

Section Properties.

Context (upper : string → string)
        (validate_source_uri is_file_path : string → bool)
        (layer_from_source : nat → string → string → option Layer).

Abbreviation run := (executeRequest upper validate_source_uri is_file_path
                   layer_from_source).
Abbreviation valid_sources := (validate_sources validate_source_uri is_file_path).
Abbreviation passes := (passes_validation upper validate_source_uri is_file_path).
Abbreviation service_requested := (service_requested upper).
Abbreviation overwrite := (overwrite upper).
Abbreviation remove_qml := (remove_qml upper).
Abbreviation remove_overwritten := (remove_overwritten upper).
Abbreviation removal_raises := (removal_raises upper).
Abbreviation entry := (entry upper).
Abbreviation opened := (opened upper).
Abbreviation built := (built upper layer_from_source).
Abbreviation incoming := (incoming upper layer_from_source).
Abbreviation registered := (registered upper layer_from_source).
Abbreviation composed := (composed upper layer_from_source).

(** *** Small facts on files and the entry of the handler *)

Lemma file_exists_true path (fs : gmap string File) :
  file_exists path fs = true ↔ is_Some (fs !! path).
Proof. unfold file_exists. apply bool_decide_eq_true. Qed.

Lemma file_exists_false path (fs : gmap string File) :
  file_exists path fs = false ↔ fs !! path = None.
Proof.
  unfold file_exists. rewrite bool_decide_eq_false.
  split; [apply eq_None_not_Some | intros ->; by inversion 1].
Qed.

Lemma returned_world_of o : returned_b o = true → o = Returned (world_of o).
Proof. by destruct o. Qed.

Lemma truthy_Some_nonempty v :
  Str.truthy v = true ↔ ∃ s, v = Some s ∧ s ≠ "".
Proof.
  destruct v as [s|]; simpl.
  - rewrite negb_true_iff. split.
    + intros H. exists s. split; [done|]. intros ->. by rewrite String.eqb_refl in H.
    + intros (s' & [= <-] & Hne). by apply String.eqb_neq.
  - split; [done | by intros (? & ? & ?)].
Qed.

Lemma truthy_nonempty v : v ≠ "" → Str.truthy (Some v) = true.
Proof. intros Hv. simpl. by apply String.eqb_neq in Hv as ->. Qed.


(** Lines 105-107: [os.remove] raises, or the handler goes on in the world
    [entry]. *)
Lemma remove_overwritten_cases params w :
  remove_overwritten params (with_header w)
  = if removal_raises params w then Raised OSError (with_header w)
    else Returned (entry params w).
Proof.
  unfold entry, removal_raises.
  unfold remove_overwritten, remove. simpl.
  change (removable (project_path params) (with_header w))
    with (removable (project_path params) w).
  destruct (file_exists _ _ && overwrite params); simpl; [|done].
  by destruct (removable (project_path params) w).
Qed.

(** The world at line 109 differs from the initial one by the header and,
    when the request overwrites a file that can be removed, by that
    file. *)
Lemma entry_eq params w :
  entry params w
  = if file_exists (project_path params) (files w) && overwrite params
       && removable (project_path params) w
    then mkWorld (delete (project_path params) (files w)) (locked w)
           (instance w)
           (setHeader "Content-type" "text/plain; charset=utf-8" (response w))
           (trace w ++ [Removed (project_path params)])
    else with_header w.
Proof.
  unfold entry, remove_overwritten, remove. simpl.
  change (removable (project_path params) (with_header w))
    with (removable (project_path params) w).
  destruct (file_exists _ _ && overwrite params); simpl; [|done].
  by destruct (removable (project_path params) w).
Qed.

Lemma entry_instance params w : instance (entry params w) = instance w.
Proof. rewrite entry_eq. by case_match. Qed.

Lemma entry_locked params w : locked (entry params w) = locked w.
Proof. rewrite entry_eq. by case_match. Qed.

Lemma entry_response params w :
  response (entry params w)
  = setHeader "Content-type" "text/plain; charset=utf-8" (response w).
Proof. rewrite entry_eq. by case_match. Qed.

Lemma entry_files params w :
  files (entry params w)
  = if file_exists (project_path params) (files w) && overwrite params
       && removable (project_path params) w
    then delete (project_path params) (files w) else files w.
Proof. rewrite entry_eq. by case_match. Qed.


Lemma entry_subfiles params w path f :
  files (entry params w) !! path = Some f → files w !! path = Some f.
Proof.
  rewrite entry_files. case_match; [|done].
  intros Hd. by apply lookup_delete_Some in Hd as [_ Hd].
Qed.

Lemma entry_lookup params w q :
  q ≠ project_path params → files (entry params w) !! q = files w !! q.
Proof.
  intros Hq. rewrite entry_files.
  case_match; [|done]. by apply lookup_delete_ne.
Qed.

Lemma entry_update params w :
  overwrite params = false → entry params w = with_header w.
Proof. intros How. rewrite entry_eq, How. by rewrite andb_false_r. Qed.

Lemma entry_nothing_written params w w' :
  files w' = files (entry params w) → nothing_written w w'.
Proof. intros Hf path f. rewrite Hf. apply entry_subfiles. Qed.

(** The entries of [SOURCES] pass the loop of lines 124-137 exactly when
    each is a valid source URI and, if a file path, names something that
    exists. *)
Lemma validate_sources_None fs sources :
  valid_sources fs sources = None ↔
  ∀ s, s ∈ sources →
       validate_source_uri s = true
       ∧ (is_file_path s = true → file_exists s fs = true).
Proof.
  induction sources as [|s rest IH]; simpl.
  - split; [intros _ s Hs; by apply elem_of_nil in Hs | done].
  - destruct (validate_source_uri s) eqn:Hv; simpl.
    + destruct (is_file_path s) eqn:Hf; simpl.
      * destruct (file_exists s fs) eqn:He; simpl.
        -- rewrite IH. split.
           ++ intros H x [->|Hx]%elem_of_cons; [by rewrite Hv, Hf, He | auto].
           ++ intros H x Hx. apply H. by right.
        -- split; [done|]. intros H.
           destruct (H s) as [_ H']; [by left|].
           specialize (H' Hf). congruence.
      * rewrite IH. split.
        -- intros H x [->|Hx]%elem_of_cons; [by rewrite Hv, Hf | auto].
        -- intros H x Hx. apply H. by right.
    + split; [done|]. intros H.
      destruct (H s) as [H' _]; [by left|]. congruence.
Qed.

Lemma layer_names_None params sources :
  layer_names params sources = None ↔
  Str.truthy (params !! "NAMES") = true
  ∧ length (Str.split ";"%char (default "" (params !! "NAMES")))
    ≠ length sources.
Proof.
  unfold layer_names. destruct (Str.truthy (params !! "NAMES")).
  - case_bool_decide as Hlen.
    + split; [by intros _ | done].
    + split; [done | by intros [_ ?]].
  - split; [done | by intros [? _]].
Qed.

Lemma default_names_length sources :
  length (default_names sources) = length sources.
Proof. unfold default_names. by rewrite length_fmap. Qed.

Lemma layer_names_length params sources names :
  layer_names params sources = Some names → length names = length sources.
Proof.
  unfold layer_names. destruct (Str.truthy _).
  - case_bool_decide as Hlen; [done|]. intros [= <-].
    destruct (decide (length (Str.split ";" (default "" (params !! "NAMES")))
                      = length sources)); [done|]. by destruct Hlen.
  - intros [= <-]. apply default_names_length.
Qed.

Lemma reject_rejected msg w :
  ∃ w', reject msg w = Returned w' ∧ rejected w w'
        ∧ files w' = files w ∧ trace w' = trace w.
Proof. eexists. split; [done|]. repeat split. by exists msg. Qed.

(** *** How a request proceeds *)

Lemma run_other_service params w :
  service_requested params = false → run params w = Returned (with_header w).
Proof. unfold executeRequest. by intros ->. Qed.

Lemma run_no_project params w :
  service_requested params = true →
  Str.truthy (params !! "PROJECT") = false →
  run params w
  = reject ("PROJECT parameter is missing." +:+ nl) (with_header w).
Proof. unfold executeRequest. by intros -> ->. Qed.

Lemma run_removal_raises params w :
  service_requested params = true →
  Str.truthy (params !! "PROJECT") = true →
  removal_raises params w = true →
  run params w = Raised OSError (with_header w).
Proof.
  unfold executeRequest. intros -> -> Hr. simpl.
  by rewrite remove_overwritten_cases, Hr.
Qed.

(** Past line 107 the handler rejects the request or goes on to set up
    the project. *)
Lemma run_entered params w :
  service_requested params = true →
  Str.truthy (params !! "PROJECT") = true →
  removal_raises params w = false →
  run params w
  = if negb (Str.truthy (sources_parameter params))
    then reject ("SOURCES parameter is missing." +:+ nl) (entry params w)
    else match valid_sources (files (entry params w))
                 (request_sources params) with
         | Some msg => reject msg (entry params w)
         | None =>
             match layer_names params (request_sources params) with
             | None =>
                 reject "Not same length between NAMES and SOURCES"
                   (entry params w)
             | Some names =>
                 compose layer_from_source (project_path params)
                   (overwrite params) names (request_sources params)
                   (entry params w)
             end
         end.
Proof.
  unfold executeRequest. intros -> -> Hr. simpl.
  by rewrite remove_overwritten_cases, Hr.
Qed.

Lemma passes_validation_true params w :
  passes params w = true ↔
  service_requested params = true
  ∧ Str.truthy (params !! "PROJECT") = true
  ∧ removal_raises params w = false
  ∧ Str.truthy (sources_parameter params) = true
  ∧ valid_sources (files (entry params w)) (request_sources params) = None
  ∧ layer_names params (request_sources params)
    = Some (request_names params).
Proof.
  unfold passes_validation.
  rewrite !andb_true_iff, !bool_decide_eq_true, negb_true_iff. split.
  - intros (((((Hs & Hp) & Hr) & Hsrc) & Hv) & [names Hn]).
    repeat split; try done. unfold request_names. by rewrite Hn.
  - intros (Hs & Hp & Hr & Hsrc & Hv & Hn). repeat split; eauto.
Qed.

Lemma passes_run params w :
  passes params w = true →
  run params w
  = compose layer_from_source (project_path params) (overwrite params)
      (request_names params) (request_sources params) (entry params w).
Proof.
  intros (Hs & Hp & Hr & Hsrc & Hv & Hn)%passes_validation_true.
  by rewrite run_entered, Hsrc, Hv, Hn.
Qed.

(** A request for the service that has a project path, gets past line 107
    and does not pass validation is rejected in the world [entry]. *)
Lemma run_rejected_at_entry params w :
  service_requested params = true →
  Str.truthy (params !! "PROJECT") = true →
  removal_raises params w = false →
  passes params w = false →
  ∃ msg, run params w = reject msg (entry params w).
Proof.
  intros Hs Hp Hr Hnp. rewrite run_entered by done.
  destruct (Str.truthy (sources_parameter params)) eqn:Hsrc; simpl;
    [|by eexists].
  destruct (valid_sources _ _) as [msg|] eqn:Hv; [by eexists|].
  destruct (layer_names _ _) as [names|] eqn:Hn; [|by eexists].
  assert (passes params w = true) as Hpass; [|congruence].
  apply passes_validation_true. repeat split; try done.
  unfold request_names. by rewrite Hn.
Qed.

(** *** Requests for another service *)

Lemma service_requested_true params :
  upper (default "" (params !! "SERVICE")) = "MAPCOMPOSITION" →
  service_requested params = true.
Proof. intros H. by apply bool_decide_eq_true. Qed.

(** C10: a request whose upper-cased SERVICE is not MAPCOMPOSITION only
    gets its Content-type header set: the handler returns, the status
    code and the body are as they were, and so are the files, the project
    instance and the trace of effects. *)
Theorem other_service_only_sets_header params w :
  upper (default "" (params !! "SERVICE")) ≠ "MAPCOMPOSITION" →
  ∃ w', run params w = Returned w'
        ∧ headers (response w')
          = <["Content-type" := "text/plain; charset=utf-8"]>
              (headers (response w))
        ∧ statusCode (response w') = statusCode (response w)
        ∧ body (response w') = body (response w)
        ∧ files w' = files w
        ∧ instance w' = instance w
        ∧ trace w' = trace w.
Proof.
  intros Hs. exists (with_header w). split; [|done].
  apply run_other_service. by apply bool_decide_eq_false.
Qed.

(** *** Rejected requests *)

(** The faults of a request that validation finds past line 107. *)
Lemma faulty_not_passes params w :
  (Str.truthy (params !! "SOURCES") = false
   ∧ Str.truthy (params !! "FILES") = false)
  ∨ (∃ s, s ∈ request_sources params ∧ validate_source_uri s = false)
  ∨ (∃ s, s ∈ request_sources params ∧ is_file_path s = true
          ∧ files w !! s = None)
  ∨ (Str.truthy (params !! "NAMES") = true
     ∧ length (Str.split ";"%char (default "" (params !! "NAMES")))
       ≠ length (request_sources params)) →
  passes params w = false.
Proof.
  intros Hfault. destruct (passes params w) eqn:Hpass; [|done]. exfalso.
  apply passes_validation_true in Hpass
    as (_ & _ & _ & Hsrc & Hv & Hn).
  destruct Hfault as [[Hs Hf]|[(s & Hin & Hs)|[(s & Hin & Hf & Hnone)|Hlen]]].
  - unfold sources_parameter in Hsrc. rewrite Hs in Hsrc. congruence.
  - destruct (proj1 (validate_sources_None _ _) Hv s Hin) as [Hs' _].
    congruence.
  - destruct (proj1 (validate_sources_None _ _) Hv s Hin) as [_ He].
    apply He, file_exists_true in Hf as [f Hf].
    apply entry_subfiles in Hf. congruence.
  - apply layer_names_None in Hlen. congruence.
Qed.

Lemma rejected_at_entry params w msg :
  ∃ w', reject msg (entry params w) = Returned w'
        ∧ statusCode (response w') = Some 400
        ∧ body (response w') = body (response w) ++ [msg]
        ∧ instance w' = instance w
        ∧ files w' = files (entry params w)
        ∧ trace w' = trace (entry params w).
Proof.
  eexists. split; [done|]. simpl.
  by rewrite entry_response, entry_instance.
Qed.

(** C4, as amended: a MAPCOMPOSITION request is answered with status 400
    and a message, the project instance and the files left as they were,
    when PROJECT is missing or empty and, provided that [os.remove] does
    not raise on an overwritten project path, when SOURCES and FILES are
    missing or empty, when an entry of the sources is not a valid source
    URI, when a file-path entry has nothing at its path, or when NAMES
    does not have as many entries as the sources. *)
Theorem invalid_request_rejected params w :
  upper (default "" (params !! "SERVICE")) = "MAPCOMPOSITION" →
  Str.truthy (params !! "PROJECT") = false
  ∨ (removal_raises params w = false
     ∧ ((Str.truthy (params !! "SOURCES") = false
         ∧ Str.truthy (params !! "FILES") = false)
        ∨ (∃ s, s ∈ request_sources params ∧ validate_source_uri s = false)
        ∨ (∃ s, s ∈ request_sources params ∧ is_file_path s = true
                ∧ files w !! s = None)
        ∨ (Str.truthy (params !! "NAMES") = true
           ∧ length (Str.split ";"%char (default "" (params !! "NAMES")))
             ≠ length (request_sources params)))) →
  ∃ w', run params w = Returned w'
        ∧ statusCode (response w') = Some 400
        ∧ (∃ msg, body (response w') = body (response w) ++ [msg])
        ∧ instance w' = instance w
        ∧ nothing_written w w'.
Proof.
  intros Hs%service_requested_true Hfault.
  destruct (Str.truthy (params !! "PROJECT")) eqn:Hp.
  - destruct Hfault as [|[Hr Hfault]]; [done|].
    apply faulty_not_passes in Hfault.
    destruct (run_rejected_at_entry _ _ Hs Hp Hr Hfault) as [msg ->].
    destruct (rejected_at_entry params w msg)
      as (w' & -> & H400 & Hbody & Hi & Hf & _).
    exists w'. repeat split; try done; [by exists msg|].
    by apply (entry_nothing_written params).
  - rewrite (run_no_project _ _ Hs Hp). eexists. split; [done|].
    split; [done|]. split; [by eexists|]. split; [done|]. by intros path f.
Qed.


(** *** Projects and the layer loop *)

Lemma addMapLayer_fileName l p : fileName (addMapLayer l p) = fileName p.
Proof. unfold addMapLayer. by case_match. Qed.

Lemma addMapLayers_fileName ls p : fileName (addMapLayers ls p) = fileName p.
Proof.
  unfold addMapLayers. revert p.
  induction ls as [|l ls IH]; intros p; simpl; [done|].
  by rewrite IH, addMapLayer_fileName.
Qed.

Lemma reconcile_step_fileName st l st' :
  reconcile_step st l = Some st' → fileName (merged st') = fileName (merged st).
Proof.
  unfold reconcile_step. intros H.
  destruct (decide_layer (merged st) l); simplify_option_eq;
    rewrite ?addMapLayer_fileName; try done;
    repeat (case_match; simplify_option_eq); try done.
Qed.

Lemma reconcile_fileName ls st st' e :
  reconcile st ls = (st', e) → fileName (merged st') = fileName (merged st).
Proof.
  revert st. induction ls as [|l ls IH]; intros st; simpl.
  - by intros [= <- <-].
  - destruct (reconcile_step st l) as [st1|] eqn:H1.
    + intros H. rewrite (IH _ H). by eapply reconcile_step_fileName.
    + by intros [= <- <-].
Qed.

Lemma register_layers_fileName ow p b st e :
  register_layers ow p b = (st, e) → fileName (merged st) = fileName p.
Proof.
  unfold register_layers. destruct ow.
  - intros [= <- <-]. apply addMapLayers_fileName.
  - intros H. by apply reconcile_fileName in H.
Qed.

Lemma open_project_fileName path ow w :
  fileName (open_project path ow w) = path.
Proof.
  unfold open_project, read. repeat case_match; done.
Qed.

(** The layer loop answers 400 when it returns early and leaves the
    status alone when it runs to its end. *)
Lemma build_layers_status fs i pairs acc resp resp' ob :
  build_layers layer_from_source fs i pairs acc resp = (resp', ob) →
  match ob with
  | Some _ => statusCode resp' = statusCode resp
  | None => statusCode resp' = Some 400
  end.
Proof.
  revert i acc resp.
  induction pairs as [|[name source] rest IH]; intros i acc resp; simpl.
  - by intros [= <- <-].
  - destruct (layer_from_source i source name) as [l|]; [|by intros [= <- <-]].
    destruct (isValid l); simpl; [|by intros [= <- <-]].
    intros H. apply IH in H. destruct ob; rewrite H; by destruct (layer_kind l).
Qed.

Lemma build_layers_headers fs pairs : ∀ i acc resp resp' ob,
  build_layers layer_from_source fs i pairs acc resp = (resp', ob) →
  headers resp' = headers resp.
Proof.
  induction pairs as [|[n s] pairs IH]; intros i acc resp resp' ob; simpl.
  - by intros [= <- _].
  - destruct (layer_from_source i s n) as [l|]; [|by intros [= <- _]].
    destruct (isValid l); simpl; [|by intros [= <- _]].
    intros ->%IH. by destruct (layer_kind l).
Qed.

Lemma renameStyle_id a b l : layer_id (renameStyle a b l) = layer_id l.
Proof. unfold renameStyle. by case_match. Qed.

Lemma renameStyle_name a b l : layer_name (renameStyle a b l) = layer_name l.
Proof. unfold renameStyle. by case_match. Qed.

Lemma renameStyle_source a b l :
  layer_source (renameStyle a b l) = layer_source l.
Proof. unfold renameStyle. by case_match. Qed.

Lemma renameStyle_kind a b l : layer_kind (renameStyle a b l) = layer_kind l.
Proof. unfold renameStyle. by case_match. Qed.

Lemma vector_ids_app l1 l2 : vector_ids (l1 ++ l2) = vector_ids l1 ++ vector_ids l2.
Proof. unfold vector_ids. by rewrite filter_app, fmap_app. Qed.

Lemma raster_ids_app l1 l2 : raster_ids (l1 ++ l2) = raster_ids l1 ++ raster_ids l2.
Proof. unfold raster_ids. by rewrite filter_app, fmap_app. Qed.

Lemma vector_ids_cons l ls :
  vector_ids (l :: ls)
  = (if decide (layer_kind l = VectorLayer) then [layer_id l] else [])
    ++ vector_ids ls.
Proof. unfold vector_ids. rewrite filter_cons. by case_decide. Qed.

Lemma raster_ids_cons l ls :
  raster_ids (l :: ls)
  = (if decide (layer_kind l = RasterLayer) then [layer_id l] else [])
    ++ raster_ids ls.
Proof. unfold raster_ids. rewrite filter_cons. by case_decide. Qed.

(** The loop appends, pair after pair: the layer built from the pair with
    its unnamed style renamed, its id to the list of its kind, and its
    companion style file if there is one. *)
Lemma build_layers_Some fs i pairs acc resp resp' b :
  build_layers layer_from_source fs i pairs acc resp = (resp', Some b) →
  ∃ new,
    qgis_layers b = qgis_layers acc ++ new
    ∧ vector_layers b = vector_layers acc ++ vector_ids new
    ∧ raster_layers b = raster_layers acc ++ raster_ids new
    ∧ qml_files b
      = qml_files acc
        ++ filter (λ q, file_exists q fs = true) (qml_of <$> pairs.*2)
    ∧ length new = length pairs
    ∧ ∀ k n s, pairs !! k = Some (n, s) →
        ∃ l, layer_from_source (i + k)%nat s n = Some l
             ∧ isValid l = true
             ∧ new !! k = Some (renameStyle "" "default" l).
Proof.
  revert i acc resp.
  induction pairs as [|[name source] rest IH]; intros i acc resp; simpl.
  - intros [= <- <-]. exists []. rewrite !app_nil_r. repeat split; done.
  - destruct (layer_from_source i source name) as [l|] eqn:Hl; [|done].
    destruct (isValid l) eqn:Hval; simpl; [|done].
    intros H. apply IH in H as (new & Hq & Hv & Hr & Hm & Hlen & Hk).
    simpl in *.
    exists (renameStyle "" "default" l :: new). repeat split.
    + by rewrite Hq, <- app_assoc.
    + rewrite Hv, vector_ids_cons, renameStyle_kind, renameStyle_id.
      destruct (layer_kind l); case_decide; try done;
        by rewrite <- ?app_assoc.
    + rewrite Hr, raster_ids_cons, renameStyle_kind, renameStyle_id.
      destruct (layer_kind l); case_decide; try done;
        by rewrite <- ?app_assoc.
    + rewrite Hm. rewrite filter_cons. unfold qml_of at 1 2.
      destruct (file_exists _ fs) eqn:He.
      * rewrite decide_True by done. by rewrite <- app_assoc.
      * rewrite decide_False by congruence. done.
    + simpl. by rewrite Hlen.
    + intros [|k] n s; simpl.
      * intros [= <- <-]. exists l. by rewrite Nat.add_0_r.
      * intros Hks. destruct (Hk k n s Hks) as (l' & Hl' & Hv' & Hn').
        exists l'. by rewrite <- Nat.add_succ_comm.
Qed.

(** What the layer loop hands over when it runs to its end. *)
Lemma built_Some params w resp b :
  built params w = (resp, Some b) →
  qgis_layers b = incoming params w
  ∧ vector_layers b = vector_ids (incoming params w)
  ∧ raster_layers b = raster_ids (incoming params w)
  ∧ qml_files b
    = filter (λ q, file_exists q (files (entry params w)) = true)
        (qml_of <$> (zip (request_names params) (request_sources params)).*2).
Proof.
  intros Hb. unfold incoming. rewrite Hb. simpl.
  apply build_layers_Some in Hb as (new & Hq & Hv & Hr & Hm & _).
  simpl in *. subst new. by rewrite Hv, Hr, Hm.
Qed.

(** The loop stops at the first pair that gives no layer or a layer that
    is not valid, with the message of that pair as the last one. *)
Lemma build_layers_refused fs pairs : ∀ i acc resp k n s,
  pairs !! k = Some (n, s) →
  refused (layer_from_source (i + k) s n) = true →
  (∀ j n' s', (j < k)%nat → pairs !! j = Some (n', s') →
     refused (layer_from_source (i + j) s' n') = false) →
  ∃ resp0,
    build_layers layer_from_source fs i pairs acc resp
    = (bad_request (refusal_message (layer_from_source (i + k) s n) s) resp0,
       None).
Proof.
  induction pairs as [|[n0 s0] pairs IH]; intros i acc resp k n s Hk Hr Hbefore;
    [done|].
  destruct k as [|k]; simpl in Hk.
  - injection Hk as -> ->. rewrite Nat.add_0_r in Hr |- *. simpl.
    unfold refused, refusal_message in *.
    destruct (layer_from_source i s n) as [l|]; [|by eexists].
    rewrite Hr. simpl. by eexists.
  - simpl. pose proof (Hbefore 0%nat n0 s0 ltac:(lia) eq_refl) as H0.
    rewrite Nat.add_0_r in H0. unfold refused in H0.
    destruct (layer_from_source i s0 n0) as [l|]; [|done].
    rewrite H0. simpl.
    replace (i + S k)%nat with (S i + k)%nat in * by lia.
    apply IH; [done..|].
    intros j n' s' Hj Hp.
    replace (S i + j)%nat with (i + S j)%nat by lia.
    apply Hbefore; [lia | done].
Qed.

(** When the loop returns early, some pair was refused. *)
Lemma build_layers_None fs pairs : ∀ i acc resp resp',
  build_layers layer_from_source fs i pairs acc resp = (resp', None) →
  ∃ k n s, pairs !! k = Some (n, s)
           ∧ refused (layer_from_source (i + k) s n) = true.
Proof.
  induction pairs as [|[n s] pairs IH]; intros i acc resp resp'; simpl;
    [done|].
  destruct (layer_from_source i s n) as [l|] eqn:Hl.
  - destruct (isValid l) eqn:Hv; simpl.
    + intros (k & n' & s' & Hk & Hr)%IH. exists (S k), n', s'.
      split; [done|]. by replace (i + S k)%nat with (S i + k)%nat by lia.
    + intros _. exists 0%nat, n, s. split; [done|].
      rewrite Nat.add_0_r, Hl. simpl. by rewrite Hv.
  - intros _. exists 0%nat, n, s. split; [done|].
    by rewrite Nat.add_0_r, Hl.
Qed.

(** *** The registry *)

Lemma decide_layer_decide_in p new_layer :
  decide_layer p new_layer = decide_in (mapLayers p) new_layer.
Proof. done. Qed.

(** A decision other than [AddNew] is about the first layer of that name. *)
Lemma filter_first {A} (P : A → Prop) `{!∀ x, Decision (P x)}
    (l : list A) x rest :
  filter P l = x :: rest →
  ∃ before after, l = before ++ x :: after ∧ P x
                  ∧ ∀ y, y ∈ before → ¬ P y.
Proof.
  induction l as [|a l IH]; [done|].
  rewrite filter_cons. case_decide as Ha.
  - intros [= <- <-]. exists [], l. repeat split; [done|].
    intros y Hy. by apply elem_of_nil in Hy.
  - intros (before & after & -> & Hx & Hb)%IH.
    exists (a :: before), after. repeat split; [done|].
    intros y [->|Hy]%elem_of_cons; auto.
Qed.

Lemma filter_none {A} (P : A → Prop) `{!∀ x, Decision (P x)} (l : list A) :
  filter P l = [] → ∀ y, y ∈ l → ¬ P y.
Proof.
  intros Hf y Hy HP.
  assert (y ∈ filter P l) as Hin by by apply list_elem_of_filter.
  rewrite Hf in Hin. by apply elem_of_nil in Hin.
Qed.

(** In a registry without repeated ids, dropping a layer by its id drops
    that layer and no other. *)
Lemma filter_id_middle before (c : Layer) after :
  NoDup (layer_ids (before ++ c :: after)) →
  filter (λ l, layer_id l ≠ layer_id c) (before ++ c :: after)
  = before ++ after.
Proof.
  unfold layer_ids. rewrite fmap_app, fmap_cons.
  intros Hnd. apply NoDup_app in Hnd as (Hb & Hdisj & Hca).
  apply NoDup_cons in Hca as [Hc Ha].
  assert (Hkeep : ∀ ls : list Layer,
             layer_id c ∉ layer_id <$> ls →
             filter (λ l, layer_id l ≠ layer_id c) ls = ls).
  { induction ls as [|x ls IH]; [done|].
    rewrite fmap_cons, not_elem_of_cons. intros [Hx Hls].
    rewrite filter_cons, decide_True by done. by rewrite IH. }
  rewrite filter_app, filter_cons, decide_False by (by intros ?).
  rewrite !Hkeep; [done | done |].
  intros Hin. apply (Hdisj _ Hin). by left.
Qed.

Lemma update_by_name_Reconciled existing new_layer :
  NoDup (layer_ids existing) →
  Reconciled existing new_layer (update_by_name existing new_layer).
Proof.
  intros Hnd. unfold update_by_name, decide_in.
  destruct (filter _ existing) as [|c rest] eqn:Hf.
  - apply reconciled_new. intros l Hl. by eapply filter_none in Hf.
  - apply filter_first in Hf as (before & after & -> & Hname & Hb).
    case_bool_decide as Hsrc.
    + by eapply reconciled_unchanged.
    + rewrite filter_id_middle by done. rewrite <- app_assoc.
      by eapply reconciled_changed.
Qed.

Lemma list_remove_Some x l :
  x ∈ l → ∃ l', list_remove x l = Some l' ∧ l ≡ₚ x :: l'.
Proof.
  induction l as [|y l IH]; [by intros ?%elem_of_nil|].
  simpl. case_bool_decide as Hy.
  - subst y. intros _. by exists l.
  - intros [?|Hin]%elem_of_cons; [congruence|].
    destruct (IH Hin) as (l' & -> & Hp). exists (y :: l'). split; [done|].
    rewrite Hp. apply Permutation_swap.
Qed.

Lemma addMapLayer_fresh l p :
  layer_id l ∉ layer_ids (mapLayers p) →
  mapLayers (addMapLayer l p) = mapLayers p ++ [l].
Proof. intros H. unfold addMapLayer. by rewrite bool_decide_eq_false_2. Qed.

Lemma addMapLayer_entries l p : entries (addMapLayer l p) = entries p.
Proof. unfold addMapLayer. by case_match. Qed.

Lemma layer_ids_filter (P : Layer → Prop) `{!∀ x, Decision (P x)} ls x :
  x ∈ layer_ids (filter P ls) → x ∈ layer_ids ls.
Proof.
  unfold layer_ids. rewrite !list_elem_of_fmap.
  intros (l & -> & [_ Hl]%list_elem_of_filter). by exists l.
Qed.

Lemma layer_ids_update_by_name existing new_layer x :
  x ∈ layer_ids (update_by_name existing new_layer) →
  x ∈ layer_ids existing ∨ x = layer_id new_layer.
Proof.
  unfold update_by_name. destruct (decide_in existing new_layer); [| by left |].
  - unfold layer_ids. rewrite fmap_app, elem_of_app. simpl.
    rewrite list_elem_of_singleton. tauto.
  - unfold layer_ids at 1. rewrite fmap_app, elem_of_app. simpl.
    intros [Hx|Hx%list_elem_of_singleton]; [left | by right].
    by eapply layer_ids_filter.
Qed.

Lemma layer_ids_filter_NoDup (P : Layer → Prop) `{!∀ x, Decision (P x)} ls :
  NoDup (layer_ids ls) → NoDup (layer_ids (filter P ls)).
Proof.
  induction ls as [|l ls IH]; [done|].
  unfold layer_ids in *. rewrite fmap_cons, NoDup_cons. intros [Hl Hls].
  rewrite filter_cons. case_decide; [|by apply IH].
  rewrite fmap_cons. apply NoDup_cons. split; [|by apply IH].
  intros Hin. apply Hl. by eapply layer_ids_filter.
Qed.

Lemma update_by_name_NoDup existing new_layer :
  NoDup (layer_ids existing) →
  layer_id new_layer ∉ layer_ids existing →
  NoDup (layer_ids (update_by_name existing new_layer)).
Proof.
  intros Hnd Hfresh. unfold update_by_name.
  destruct (decide_in existing new_layer); [| done |].
  - unfold layer_ids in *. rewrite fmap_app. apply NoDup_app.
    repeat split; [done | | apply NoDup_singleton].
    intros x Hx ->%list_elem_of_singleton. done.
  - unfold layer_ids in *. rewrite fmap_app. apply NoDup_app.
    repeat split; [| | apply NoDup_singleton].
    + by apply layer_ids_filter_NoDup.
    + intros x Hx ->%list_elem_of_singleton.
      apply Hfresh. by eapply layer_ids_filter.
Qed.

Lemma foldl_update_ReconciledAll news : ∀ existing,
  NoDup (layer_ids existing) →
  NoDup (layer_ids news) →
  (∀ x, x ∈ layer_ids news → x ∉ layer_ids existing) →
  ReconciledAll existing news (foldl update_by_name existing news).
Proof.
  induction news as [|n rest IH]; intros existing He Hn Hfresh; simpl.
  - constructor.
  - unfold layer_ids in Hn. rewrite fmap_cons in Hn.
    apply NoDup_cons in Hn as [Hn Hrest].
    assert (layer_id n ∉ layer_ids existing).
    { apply Hfresh. unfold layer_ids. rewrite fmap_cons. by left. }
    econstructor; [by apply update_by_name_Reconciled|].
    apply IH; [by apply update_by_name_NoDup | done |].
    intros x Hx [Hin| ->]%layer_ids_update_by_name; [|done].
    revert Hin. apply Hfresh. unfold layer_ids. rewrite fmap_cons. by right.
Qed.

Lemma addMapLayers_entries ls p : entries (addMapLayers ls p) = entries p.
Proof.
  unfold addMapLayers. revert p.
  induction ls as [|l ls IH]; intros p; simpl; [done|].
  by rewrite IH, addMapLayer_entries.
Qed.

Lemma addMapLayers_fresh ls : ∀ p,
  NoDup (layer_ids ls) →
  (∀ x, x ∈ layer_ids ls → x ∉ layer_ids (mapLayers p)) →
  mapLayers (addMapLayers ls p) = mapLayers p ++ ls.
Proof.
  unfold addMapLayers.
  induction ls as [|l ls IH]; intros p Hnd Hfresh; simpl.
  - by rewrite app_nil_r.
  - unfold layer_ids in Hnd. rewrite fmap_cons in Hnd.
    apply NoDup_cons in Hnd as [Hl Hnd].
    assert (layer_id l ∉ layer_ids (mapLayers p)) as Hlp.
    { apply Hfresh. unfold layer_ids. rewrite fmap_cons. by left. }
    rewrite IH; [| done |].
    + rewrite addMapLayer_fresh by done. by rewrite <- app_assoc.
    + intros x Hx. rewrite addMapLayer_fresh by done.
      unfold layer_ids. rewrite fmap_app, elem_of_app. simpl.
      rewrite list_elem_of_singleton. intros [Hin| ->]; [|done].
      revert Hin. apply Hfresh. unfold layer_ids. rewrite fmap_cons. by right.
Qed.

Lemma update_by_name_keeps existing new_layer l :
  NoDup (layer_ids existing) →
  l ∈ existing →
  layer_name l ≠ layer_name new_layer →
  l ∈ update_by_name existing new_layer.
Proof.
  intros Hnd Hl Hname.
  destruct (update_by_name_Reconciled existing new_layer Hnd)
    as [Hnone|before c after Hex _ _ _|before c after Hex _ Hc _].
  - apply elem_of_app. by left.
  - done.
  - subst existing. rewrite !elem_of_app, elem_of_cons in Hl.
    rewrite !elem_of_app.
    destruct Hl as [?|[->|?]]; [by left | congruence | right; by left].
Qed.

Lemma foldl_update_keeps news : ∀ existing l,
  NoDup (layer_ids existing) →
  NoDup (layer_ids news) →
  (∀ x, x ∈ layer_ids news → x ∉ layer_ids existing) →
  l ∈ existing →
  (∀ n, n ∈ news → layer_name l ≠ layer_name n) →
  l ∈ foldl update_by_name existing news.
Proof.
  induction news as [|n rest IH]; intros existing l He Hn Hfresh Hl Hnames;
    simpl; [done|].
  unfold layer_ids in Hn. rewrite fmap_cons in Hn.
  apply NoDup_cons in Hn as [Hn Hrest].
  assert (layer_id n ∉ layer_ids existing).
  { apply Hfresh. unfold layer_ids. rewrite fmap_cons. by left. }
  apply IH; [by apply update_by_name_NoDup | done | | |].
  - intros x Hx [Hin|Hxn]%layer_ids_update_by_name; [|by subst].
    revert Hin. apply Hfresh. unfold layer_ids. rewrite fmap_cons. by right.
  - apply update_by_name_keeps; [done | done |]. apply Hnames. by left.
  - intros n' Hn'. apply Hnames. by right.
Qed.

Lemma decide_in_new existing n :
  (∀ l, l ∈ existing → layer_name l ≠ layer_name n) →
  decide_in existing n = AddNew.
Proof.
  intros Hnew. unfold decide_in.
  destruct (filter _ existing) as [|c rest] eqn:Hf; [done|].
  assert (c ∈ filter (λ l, layer_name l = layer_name n) existing) as Hc
    by (rewrite Hf; by left).
  apply list_elem_of_filter in Hc as [Hname Hc]. by destruct (Hnew c Hc).
Qed.

Lemma foldl_update_new news : ∀ existing,
  NoDup (layer_name <$> news) →
  (∀ l n, l ∈ existing → n ∈ news → layer_name l ≠ layer_name n) →
  foldl update_by_name existing news = existing ++ news.
Proof.
  induction news as [|n news IH]; intros existing Hnd Hnew; simpl;
    [by rewrite app_nil_r|].
  apply NoDup_cons in Hnd as [Hn Hnd].
  unfold update_by_name at 2. rewrite decide_in_new
    by (intros l Hl; apply Hnew; [done | by left]).
  rewrite IH, <- app_assoc; [done..|].
  intros l n' [Hl|Hl]%elem_of_app Hn'.
  - apply Hnew; [done | by right].
  - apply list_elem_of_singleton in Hl as ->. intros Heq. apply Hn.
    rewrite Heq. by apply list_elem_of_fmap_2.
Qed.

Lemma decide_layer_kept p n :
  (∃ c, c ∈ mapLayers p ∧ layer_name c = layer_name n) →
  (∀ c, c ∈ mapLayers p → layer_name c = layer_name n →
        layer_source c = layer_source n) →
  ∃ c, decide_layer p n = KeepCurrent c.
Proof.
  intros (c & Hc & Hname) Hsame. unfold decide_layer, mapLayersByName.
  destruct (filter _ (mapLayers p)) as [|c0 rest] eqn:Hf.
  - exfalso.
    assert (c ∈ filter (λ l, layer_name l = layer_name n) (mapLayers p)) as Hin
      by (by apply list_elem_of_filter).
    rewrite Hf in Hin. by apply elem_of_nil in Hin.
  - assert (c0 ∈ filter (λ l, layer_name l = layer_name n) (mapLayers p))
      as Hin by (rewrite Hf; by left).
    apply list_elem_of_filter in Hin as [Hn0 Hc0].
    rewrite bool_decide_eq_true_2 by (by apply Hsame). by exists c0.
Qed.

Lemma reconcile_all_kept news : ∀ st st' e,
  reconcile st news = (st', e) →
  (∀ n, n ∈ news → ∃ c, decide_layer (merged st) n = KeepCurrent c) →
  merged st' = merged st.
Proof.
  induction news as [|n news IH]; intros st st' e; simpl.
  - by intros [= <- _].
  - intros Hrec Hkept.
    destruct (Hkept n) as [c Hc]; [by left|].
    destruct (reconcile_step st n) as [st1|] eqn:Hstep;
      [|by injection Hrec as <- _].
    assert (merged st1 = merged st) as H1.
    { unfold reconcile_step in Hstep. rewrite Hc in Hstep.
      destruct (layer_kind n); simpl in Hstep.
      - destruct (list_remove _ (merged_raster st)); simpl in Hstep; [|done].
        by injection Hstep as <-.
      - destruct (list_remove _ (merged_vector st)); simpl in Hstep; [|done].
        by injection Hstep as <-.
      - by injection Hstep as <-. }
    rewrite <- H1. apply (IH _ _ _ Hrec).
    intros n' Hn'. rewrite H1. apply Hkept. by right.
Qed.

Lemma addMapLayers_elem_of ls p l :
  l ∈ mapLayers (addMapLayers ls p) → l ∈ mapLayers p ∨ l ∈ ls.
Proof.
  unfold addMapLayers. revert p.
  induction ls as [|x ls IH]; intros p; simpl; [by left|].
  intros [Hin|Hin]%IH; [|right; by right].
  unfold addMapLayer in Hin. case_bool_decide; [by left|].
  simpl in Hin. apply elem_of_app in Hin as [?|Hx%list_elem_of_singleton];
    [by left | subst; right; by left].
Qed.

Lemma reconcile_step_elem_of st n st' l :
  reconcile_step st n = Some st' →
  l ∈ mapLayers (merged st') → l ∈ mapLayers (merged st) ∨ l = n.
Proof.
  assert (Hadd : ∀ p, l ∈ mapLayers (addMapLayer n p) →
                      l ∈ mapLayers p ∨ l = n).
  { intros p. unfold addMapLayer. case_bool_decide; [by left|]. simpl.
    rewrite elem_of_app, list_elem_of_singleton. tauto. }
  unfold reconcile_step.
  destruct (decide_layer (merged st) n) as [|c|c].
  - intros [= <-]. simpl. apply Hadd.
  - destruct (layer_kind n); intros Hst; simplify_option_eq; by left.
  - intros [= <-]. simpl. intros [Hin|Hin]%Hadd; [left | by right].
    simpl in Hin. apply list_elem_of_filter in Hin as [_ Hin].
    by destruct (layer_kind n).
Qed.

Lemma reconcile_elem_of news : ∀ st st' e l,
  reconcile st news = (st', e) →
  l ∈ mapLayers (merged st') → l ∈ mapLayers (merged st) ∨ l ∈ news.
Proof.
  induction news as [|n rest IH]; intros st st' e l; simpl.
  - intros [= <- <-]. by left.
  - destruct (reconcile_step st n) as [st1|] eqn:Hstep.
    + intros Hrec [Hin|Hin]%(IH _ _ _ _ Hrec); [|right; by right].
      apply (reconcile_step_elem_of _ _ _ _ Hstep) in Hin as [?|Hx];
        [by left | subst; right; by left].
    + intros [= <- <-]. by left.
Qed.

(** *** No ValueError *)

Lemma reconcile_step_lists st n rest dv dr :
  merged_vector st ≡ₚ dv ++ vector_ids (n :: rest) →
  merged_raster st ≡ₚ dr ++ raster_ids (n :: rest) →
  ∃ st' dv' dr',
    reconcile_step st n = Some st'
    ∧ merged_vector st' ≡ₚ dv' ++ vector_ids rest
    ∧ merged_raster st' ≡ₚ dr' ++ raster_ids rest.
Proof.
  intros Hv Hr.
  rewrite vector_ids_cons in Hv. rewrite raster_ids_cons in Hr.
  unfold reconcile_step.
  destruct (decide_layer (merged st) n) as [|c|c].
  - eexists _,
      (dv ++ if decide (layer_kind n = VectorLayer) then [layer_id n] else []),
      (dr ++ if decide (layer_kind n = RasterLayer) then [layer_id n] else []).
    split; [done|]. simpl. by rewrite <- !app_assoc.
  - destruct (layer_kind n) eqn:Hk; simpl in Hv, Hr.
    + destruct (list_remove_Some (layer_id n) (merged_raster st))
        as (r & -> & Hp).
      { rewrite Hr. apply elem_of_app. right. by left. }
      exists (mkMerge (merged st) (project_qgis_layers st ++ [c])
                (merged_vector st) (r ++ [layer_id c])),
             dv, (dr ++ [layer_id c]).
      split; [done|]. simpl. split; [done|].
      rewrite Hp in Hr.
      assert (r ≡ₚ dr ++ raster_ids rest) as ->.
      { apply (Permutation_cons_inv (a := layer_id n)).
        rewrite Hr. by rewrite Permutation_middle. }
      rewrite <- !app_assoc. apply Permutation_app_head, Permutation_app_comm.
    + destruct (list_remove_Some (layer_id n) (merged_vector st))
        as (v & -> & Hp).
      { rewrite Hv. apply elem_of_app. right. by left. }
      exists (mkMerge (merged st) (project_qgis_layers st ++ [c])
                (v ++ [layer_id c]) (merged_raster st)),
             (dv ++ [layer_id c]), dr.
      split; [done|]. simpl. split; [|done].
      rewrite Hp in Hv.
      assert (v ≡ₚ dv ++ vector_ids rest) as ->.
      { apply (Permutation_cons_inv (a := layer_id n)).
        rewrite Hv. by rewrite Permutation_middle. }
      rewrite <- !app_assoc. apply Permutation_app_head, Permutation_app_comm.
    + eexists _, dv, dr. split; [done|]. by simpl.
  - eexists _,
      (dv ++ if decide (layer_kind n = VectorLayer) then [layer_id n] else []),
      (dr ++ if decide (layer_kind n = RasterLayer) then [layer_id n] else []).
    split; [done|]. simpl. by rewrite <- !app_assoc.
Qed.

Lemma reconcile_never_raises news : ∀ st dv dr,
  merged_vector st ≡ₚ dv ++ vector_ids news →
  merged_raster st ≡ₚ dr ++ raster_ids news →
  (reconcile st news).2 = None.
Proof.
  induction news as [|n rest IH]; intros st dv dr Hv Hr; simpl; [done|].
  destruct (reconcile_step_lists st n rest dv dr Hv Hr)
    as (st' & dv' & dr' & -> & Hv' & Hr').
  by eapply IH.
Qed.

Lemma register_layers_never_raises ow p b :
  vector_layers b = vector_ids (qgis_layers b) →
  raster_layers b = raster_ids (qgis_layers b) →
  (register_layers ow p b).2 = None.
Proof.
  intros Hv Hr. unfold register_layers. destruct ow; [done|].
  apply (reconcile_never_raises _ _ [] []); simpl; by rewrite ?Hv, ?Hr.
Qed.

(** *** Up to line 246 *)

Lemma registered_built params w resp b :
  built params w = (resp, Some b) →
  registered params w
  = register_layers (overwrite params) (opened params w) b.
Proof. unfold registered. by intros ->. Qed.

(** The registration of lines 200-244 never raises. *)
Lemma registered_None params w : (registered params w).2 = None.
Proof.
  unfold registered.
  destruct (built params w) as [resp [b|]] eqn:Hb; [|done]. simpl.
  destruct (built_Some _ _ _ _ Hb) as (Hq & Hv & Hr & _).
  apply register_layers_never_raises; congruence.
Qed.

Lemma composed_fileName params w :
  fileName (composed params w) = project_path params.
Proof.
  unfold composed, registered.
  destruct (built params w) as [resp [b|]]; simpl.
  - destruct (register_layers _ _ b) as [st e] eqn:Hreg. simpl.
    rewrite (register_layers_fileName _ _ _ _ _ Hreg).
    apply open_project_fileName.
  - apply open_project_fileName.
Qed.

(** A request that passes validation and whose layers are all built has
    them registered and stops at line 246. *)
Lemma passes_built_run params w resp b :
  passes params w = true →
  built params w = (resp, Some b) →
  run params w
  = Raised AttributeError
      (mkWorld (files (entry params w)) (locked w) (composed params w) resp
         (open_trace (project_path params) (overwrite params)
            (entry params w))).
Proof.
  intros Hpass Hb. rewrite (passes_run _ _ Hpass).
  pose proof (registered_None params w) as Hnone.
  unfold composed. rewrite (registered_built _ _ _ _ Hb) in Hnone |- *.
  unfold compose. unfold built in Hb. rewrite Hb.
  fold (opened params w).
  destruct (register_layers _ _ b) as [st e]. simpl in Hnone. subst e.
  by rewrite entry_locked.
Qed.

Lemma passes_refused_run params w resp :
  passes params w = true →
  built params w = (resp, None) →
  run params w
  = Returned (mkWorld (files (entry params w)) (locked w) (opened params w)
                resp
                (open_trace (project_path params) (overwrite params)
                   (entry params w))).
Proof.
  intros Hpass Hb. rewrite (passes_run _ _ Hpass).
  unfold compose. unfold built in Hb. by rewrite Hb, entry_locked.
Qed.

Lemma passes_entered params w :
  passes params w = true →
  service_requested params = true
  ∧ Str.truthy (params !! "PROJECT") = true
  ∧ removal_raises params w = false.
Proof. by intros (? & ? & ? & _)%passes_validation_true. Qed.

(** The project an update starts from is the project of the file. *)
Lemma opened_update params w existing :
  overwrite params = false →
  files w !! project_path params = Some (ProjectFile existing) →
  opened params w
  = mkProject (project_path params) (mapLayers existing) (entries existing).
Proof.
  intros How Hfile. unfold opened, open_project.
  rewrite (entry_update _ _ How), How. simpl.
  assert (file_exists (project_path params) (files w) = true) as ->.
  { apply file_exists_true. by rewrite Hfile. }
  simpl. unfold read. simpl. by rewrite Hfile.
Qed.

(** One iteration of the loop of lines 211-244 on the registry. *)
Lemma reconcile_step_registry st n st' :
  layer_id n ∉ layer_ids (mapLayers (merged st)) →
  reconcile_step st n = Some st' →
  mapLayers (merged st') = update_by_name (mapLayers (merged st)) n.
Proof.
  intros Hfresh. unfold reconcile_step, update_by_name.
  rewrite decide_layer_decide_in.
  destruct (decide_in (mapLayers (merged st)) n) as [|c|c].
  - intros [= <-]. simpl. by apply addMapLayer_fresh.
  - destruct (layer_kind n); simpl.
    + destruct (list_remove _ (merged_raster st)); simpl; [|done].
      by intros [= <-].
    + destruct (list_remove _ (merged_vector st)); simpl; [|done].
      by intros [= <-].
    + by intros [= <-].
  - intros [= <-]. simpl. rewrite addMapLayer_fresh.
    + by destruct (layer_kind n).
    + simpl. intros Hin%layer_ids_filter.
      destruct (layer_kind n); simpl in Hin; done.
Qed.

Lemma reconcile_registry news : ∀ st st',
  NoDup (layer_ids news) →
  (∀ x, x ∈ layer_ids news → x ∉ layer_ids (mapLayers (merged st))) →
  reconcile st news = (st', None) →
  mapLayers (merged st')
  = foldl update_by_name (mapLayers (merged st)) news.
Proof.
  induction news as [|n rest IH]; intros st st' Hnd Hfresh; simpl.
  - by intros [= <-].
  - unfold layer_ids in Hnd. rewrite fmap_cons in Hnd.
    apply NoDup_cons in Hnd as [Hn Hnd].
    destruct (reconcile_step st n) as [st1|] eqn:Hstep; [|done].
    intros Hrec.
    assert (Hreg : mapLayers (merged st1)
                   = update_by_name (mapLayers (merged st)) n).
    { apply reconcile_step_registry; [|done].
      apply Hfresh. unfold layer_ids. rewrite fmap_cons. by left. }
    rewrite <- Hreg. apply IH; [done| |done].
    intros x Hx. rewrite Hreg.
    intros [Hin| ->]%layer_ids_update_by_name; [|done].
    revert Hin. apply Hfresh. unfold layer_ids. rewrite fmap_cons. by right.
Qed.

(** The registry that line 246 finds. *)
Lemma composed_registry params w resp b :
  built params w = (resp, Some b) →
  NoDup (layer_ids (incoming params w)) →
  (∀ x, x ∈ layer_ids (incoming params w) →
        x ∉ layer_ids (mapLayers (opened params w))) →
  mapLayers (composed params w)
  = registry_for (overwrite params) (mapLayers (opened params w))
      (incoming params w).
Proof.
  intros Hb Hnd Hfresh.
  pose proof (registered_None params w) as Hnone.
  unfold composed. rewrite (registered_built _ _ _ _ Hb) in Hnone |- *.
  destruct (built_Some _ _ _ _ Hb) as (Hq & _).
  unfold register_layers, registry_for in *. rewrite Hq in *.
  destruct (overwrite params); simpl.
  - by apply addMapLayers_fresh.
  - destruct (reconcile _ _) as [st e] eqn:Hrec. simpl in *. subst e.
    by rewrite (reconcile_registry _ (mkMerge (opened params w) [] _ _) _
                  Hnd Hfresh Hrec).
Qed.

Lemma run_instance_built params w resp b :
  passes params w = true →
  built params w = (resp, Some b) →
  instance (world_of (run params w)) = composed params w.
Proof. intros Hpass Hb. by rewrite (passes_built_run _ _ _ _ Hpass Hb). Qed.

(** *** Reconciliation *)

(** C1: for a request that does not overwrite, on an existing project
    file, that passes validation and whose layers are all built, the
    registry of the project instance once the loop of lines 211-244 is
    over is obtained from the registry read by reconciling the incoming
    layers one at a time, in input order: a new name is added, a known
    name with the same source keeps the existing layer and drops the new
    one, a known name with another source removes the existing layer and
    adds the new one.  Layer ids identify layers: they are pairwise
    distinct in the project and among the incoming layers, and those of
    the incoming layers are new. *)
Theorem update_reconciles_by_name params w existing :
  passes params w = true →
  overwrite params = false →
  files w !! project_path params = Some (ProjectFile existing) →
  is_Some (built params w).2 →
  NoDup (layer_ids (mapLayers existing)) →
  NoDup (layer_ids (incoming params w)) →
  (∀ x, x ∈ layer_ids (incoming params w) →
        x ∉ layer_ids (mapLayers existing)) →
  ReconciledAll (mapLayers existing) (incoming params w)
    (mapLayers (instance (world_of (run params w)))).
Proof.
  intros Hpass How Hfile [b Hb] He Hnd Hfresh.
  destruct (built params w) as [resp ob] eqn:Hbuilt. simpl in Hb. subst ob.
  rewrite (run_instance_built _ _ _ _ Hpass Hbuilt).
  pose proof (opened_update _ _ _ How Hfile) as Hopen.
  rewrite (composed_registry _ _ _ _ Hbuilt Hnd), Hopen, How; simpl.
  - by apply foldl_update_ReconciledAll.
  - by rewrite Hopen.
Qed.

(** *** Splitting *)

Lemma split_nonempty sep s : Str.split sep s ≠ [].
Proof.
  destruct s as [|c r]; simpl; [done|].
  destruct (Ascii.eqb c sep); [done|]. by destruct (Str.split sep r).
Qed.

Lemma join_cons sep x l :
  l ≠ [] → join sep (x :: l) = x +:+ String sep (join sep l).
Proof. by destruct l. Qed.

(** X19: [split] cuts a string at every separator and nowhere else:
    joining the entries with the separator gives the string back, there
    is one entry more than there are separators in the string, and no
    entry holds a separator. *)
Theorem split_cuts_at_separators sep s :
  join sep (Str.split sep s) = s
  ∧ length (Str.split sep s) = S (count_char sep s)
  ∧ Forall (λ x, count_char sep x = 0%nat) (Str.split sep s).
Proof.
  induction s as [|c r (IHj & IHl & IHf)]; [by repeat constructor|].
  cbn [Str.split count_char]. destruct (Ascii.eqb c sep) eqn:Hc.
  - apply Ascii.eqb_eq in Hc as ->.
    rewrite join_cons by apply split_nonempty.
    rewrite IHj. simpl. rewrite IHl. by repeat constructor.
  - destruct (Str.split sep r) as [|h t] eqn:Hsplit; [done|].
    split; [|split].
    + destruct t as [|h' t]; [by simpl in *; subst|].
      rewrite join_cons in IHj |- * by done.
      by rewrite StrFacts.append_cons, IHj.
    + done.
    + apply Forall_cons in IHf as [Hh Ht]. constructor; [|done].
      simpl. by rewrite Hc.
Qed.

(** Entries that hold no separator, joined by the separator, are the
    entries [split] gives back. *)
Lemma split_of_joined sep l :
  l ≠ [] →
  Forall (λ x, count_char sep x = 0%nat) l →
  Str.split sep (join sep l) = l.
Proof.
  intros Hl Hall. induction l as [|x l IH]; [done|].
  apply Forall_cons in Hall as [Hx Hall]. clear Hl.
  assert (Hcons : ∀ rest, Str.split sep (x +:+ rest)
            = match Str.split sep rest with
              | h :: t => (x +:+ h) :: t
              | [] => [x]
              end).
  { intros rest. induction x as [|c x IHx].
    - change ("" +:+ rest) with rest.
      pose proof (split_nonempty sep rest).
      by destruct (Str.split sep rest).
    - simpl in Hx. destruct (Ascii.eqb c sep) eqn:Hc; [done|].
      rewrite StrFacts.append_cons. cbn [Str.split]. rewrite Hc, IHx by done.
      pose proof (split_nonempty sep rest).
      by destruct (Str.split sep rest). }
  destruct l as [|y l].
  - simpl. specialize (Hcons ""). simpl in Hcons.
    assert (x +:+ "" = x) as Hx0.
    { clear. induction x as [|c x IHx]; [done|].
      by rewrite StrFacts.append_cons, IHx. }
    by rewrite Hx0 in Hcons.
  - rewrite join_cons by done. rewrite Hcons. cbn [Str.split].
    rewrite Ascii.eqb_refl, IH by done.
    assert (x +:+ "" = x) as ->; [|done].
    clear. induction x as [|c x IHx]; [done|].
    by rewrite StrFacts.append_cons, IHx.
Qed.

Lemma join_nonempty sep l : join sep l ≠ "" → l ≠ [].
Proof. by intros Hj ->. Qed.

(** X20: sources and names that hold no semicolon, sent joined by
    semicolons as SOURCES and NAMES, are the sources and the names the
    handler works on, one layer name per source and in order. *)
Theorem joined_entries_are_read_back params srcs names :
  Forall (λ x, count_char ";" x = 0%nat) srcs →
  Forall (λ x, count_char ";" x = 0%nat) names →
  join ";" srcs ≠ "" →
  join ";" names ≠ "" →
  length names = length srcs →
  request_sources
    (<["NAMES" := join ";" names]> (<["SOURCES" := join ";" srcs]> params))
  = srcs
  ∧ request_names
      (<["NAMES" := join ";" names]> (<["SOURCES" := join ";" srcs]> params))
    = names.
Proof.
  intros Hsrcs Hnames Hs Hn Hlen.
  assert (request_sources
            (<["NAMES" := join ";" names]>
               (<["SOURCES" := join ";" srcs]> params)) = srcs) as Hsources.
  { unfold request_sources, sources_parameter.
    rewrite lookup_insert_ne, lookup_insert_eq by done.
    rewrite truthy_nonempty by done. simpl.
    apply split_of_joined; [by eapply join_nonempty | done]. }
  split; [done|].
  unfold request_names. rewrite Hsources. unfold layer_names.
  rewrite lookup_insert_eq, truthy_nonempty by done. simpl.
  rewrite split_of_joined by (by eauto using join_nonempty).
  by rewrite bool_decide_eq_false_2 by (by intros []).
Qed.

(** *** Names *)



(** *** Styles *)

Lemma renameStyle_default l :
  "" ∈ styles l ∨ "default" ∈ styles l →
  "default" ∈ styles (renameStyle "" "default" l).
Proof.
  intros Hst. unfold renameStyle.
  destruct (bool_decide ("" ∈ styles l)) eqn:He;
    destruct (bool_decide ("default" ∈ styles l)) eqn:Hd; simpl.
  - by apply bool_decide_eq_true in Hd.
  - apply bool_decide_eq_true in He.
    apply list_elem_of_fmap. exists "". by rewrite bool_decide_eq_true_2.
  - by apply bool_decide_eq_true in Hd.
  - apply bool_decide_eq_false in He, Hd. tauto.
Qed.

(** When the rename goes through, the unnamed style is gone. *)
Lemma renameStyle_unnamed_gone l :
  "" ∈ styles l → "default" ∉ styles l →
  "" ∉ styles (renameStyle "" "default" l).
Proof.
  intros He Hd. unfold renameStyle.
  rewrite (bool_decide_eq_true_2 _ He), (bool_decide_eq_false_2 _ Hd). simpl.
  intros (s & Hs & _)%list_elem_of_fmap. by case_bool_decide.
Qed.

(** The incoming layers come from the layer loop. *)
Lemma incoming_built params w resp b l :
  built params w = (resp, Some b) →
  l ∈ incoming params w →
  ∃ i s n l0, layer_from_source i s n = Some l0
              ∧ l = renameStyle "" "default" l0.
Proof.
  intros Hb Hl. unfold incoming in Hl. rewrite Hb in Hl. simpl in Hl.
  apply build_layers_Some in Hb as (new & Hq & _ & _ & _ & Hlen & Hk).
  simpl in Hq. subst new.
  apply list_elem_of_lookup in Hl as [k Hkl].
  destruct (lookup_lt_is_Some_2
              (zip (request_names params) (request_sources params)) k)
    as [[n s] Hp].
  { rewrite <- Hlen. by eapply lookup_lt_Some. }
  destruct (Hk k n s Hp) as (l0 & Hl0 & _ & Hnew).
  exists (0 + k)%nat, s, n, l0. split; [done|]. congruence.
Qed.

Lemma renameStyle_printed a b l :
  printed (renameStyle a b l) = printed l
  ∧ type_printed (renameStyle a b l) = type_printed l.
Proof. unfold renameStyle. by case_match. Qed.

(** Whatever the registration does, the project instance then holds
    layers of the opened project and incoming layers only. *)
Lemma composed_elem_of params w resp b l :
  built params w = (resp, Some b) →
  l ∈ mapLayers (composed params w) →
  l ∈ mapLayers (opened params w) ∨ l ∈ incoming params w.
Proof.
  intros Hb. destruct (built_Some _ _ _ _ Hb) as (Hq & _).
  unfold composed. rewrite (registered_built _ _ _ _ Hb).
  unfold register_layers. rewrite Hq. destruct (overwrite params); simpl.
  - apply addMapLayers_elem_of.
  - destruct (reconcile _ _) as [st e] eqn:Hrec. simpl.
    intros Hin. by apply (reconcile_elem_of _ _ _ _ _ Hrec) in Hin.
Qed.

(** C9: every layer built from a source has its unnamed style renamed to
    'default' in the layer loop, before the layer enters the project (a
    style manager that already has a style 'default' keeps its styles):
    every layer the request brings into the project carries a style named
    'default', and the other layers of the project instance are layers of
    the opened project.  A newly built layer is taken to hold the unnamed
    style or a style 'default'. *)
Theorem built_layers_carry_default params w :
  passes params w = true →
  is_Some (built params w).2 →
  (∀ i s n l, layer_from_source i s n = Some l →
              "" ∈ styles l ∨ "default" ∈ styles l) →
  (∀ l, l ∈ incoming params w →
     ∃ i s n l0, layer_from_source i s n = Some l0
                 ∧ l = renameStyle "" "default" l0
                 ∧ "default" ∈ styles l
                 ∧ ("default" ∉ styles l0 → "" ∉ styles l))
  ∧ (∀ l, l ∈ mapLayers (instance (world_of (run params w))) →
       l ∈ mapLayers (opened params w)
       ∨ (l ∈ incoming params w ∧ "default" ∈ styles l)).
Proof.
  intros Hpass [b Hb] Hstyles.
  destruct (built params w) as [resp ob] eqn:Hbuilt. simpl in Hb. subst ob.
  assert (Hinc : ∀ l, l ∈ incoming params w →
            ∃ i s n l0, layer_from_source i s n = Some l0
                        ∧ l = renameStyle "" "default" l0
                        ∧ "default" ∈ styles l
                        ∧ ("default" ∉ styles l0 → "" ∉ styles l)).
  { intros l Hl.
    destruct (incoming_built _ _ _ _ _ Hbuilt Hl)
      as (i & s & n & l0 & Hl0 & ->).
    exists i, s, n, l0. repeat split; try done.
    - eapply renameStyle_default, Hstyles, Hl0.
    - intros Hd. destruct (Hstyles _ _ _ _ Hl0) as [He|?]; [|done].
      by apply renameStyle_unnamed_gone. }
  split; [done|].
  rewrite (run_instance_built _ _ _ _ Hpass Hbuilt).
  intros l [Hl|Hl]%(composed_elem_of _ _ _ _ _ Hbuilt); [by left | right].
  split; [done|]. by destruct (Hinc l Hl) as (_ & _ & _ & _ & _ & _ & ? & _).
Qed.

(** *** How a request ends *)

(** The ways through the handler. *)
Lemma run_outcome params w :
  (service_requested params = false
   ∧ run params w = Returned (with_header w))
  ∨ (service_requested params = true
     ∧ Str.truthy (params !! "PROJECT") = false
     ∧ run params w
       = reject ("PROJECT parameter is missing." +:+ nl) (with_header w))
  ∨ (service_requested params = true
     ∧ Str.truthy (params !! "PROJECT") = true
     ∧ removal_raises params w = true
     ∧ run params w = Raised OSError (with_header w))
  ∨ (service_requested params = true
     ∧ Str.truthy (params !! "PROJECT") = true
     ∧ removal_raises params w = false
     ∧ passes params w = false
     ∧ ∃ msg, run params w = reject msg (entry params w))
  ∨ (passes params w = true
     ∧ ∃ resp, built params w = (resp, None)
         ∧ run params w
           = Returned (mkWorld (files (entry params w)) (locked w)
                         (opened params w) resp
                         (open_trace (project_path params)
                            (overwrite params) (entry params w))))
  ∨ (passes params w = true
     ∧ ∃ resp b, built params w = (resp, Some b)
         ∧ run params w
           = Raised AttributeError
               (mkWorld (files (entry params w)) (locked w)
                  (composed params w) resp
                  (open_trace (project_path params) (overwrite params)
                     (entry params w)))).
Proof.
  destruct (service_requested params) eqn:Hs;
    [|left; split; [done | by apply run_other_service]].
  destruct (Str.truthy (params !! "PROJECT")) eqn:Hp;
    [|right; left; repeat split; try done; by apply run_no_project].
  destruct (removal_raises params w) eqn:Hr;
    [right; right; left; repeat split; try done;
     by apply run_removal_raises|].
  destruct (passes params w) eqn:Hpass.
  - destruct (built params w) as [resp [b|]] eqn:Hb.
    + do 5 right. split; [done|]. exists resp, b. split; [done|].
      by apply (passes_built_run _ _ _ b).
    + do 4 right. left. split; [done|]. exists resp. split; [done|].
      by apply passes_refused_run.
  - do 3 right. left. repeat split; try done.
    by apply run_rejected_at_entry.
Qed.

(** X3: no request ends with a [ValueError]: the [list.remove] calls of
    the reconciliation loop find the id they remove, which the layer loop
    appended and no earlier iteration removed. *)
Theorem no_ValueError params w :
  exception_of (run params w) ≠ Some ValueError.
Proof.
  destruct (run_outcome params w) as
    [[_ ->]|[(_ & _ & ->)|[(_ & _ & _ & ->)|[(_ & _ & _ & _ & msg & ->)
    |[(_ & resp & _ & ->)|(_ & resp & b & _ & ->)]]]]]; done.
Qed.

(** X10: the handler ends with [AttributeError] exactly when the request
    passes validation and all its layers are built: it then reaches line
    246.  By then no status is set and no file is written; the shared
    project instance is named after the project path and holds the
    registered layers. *)
Theorem raises_AttributeError_iff params w :
  (exception_of (run params w) = Some AttributeError
   ↔ passes params w = true ∧ is_Some (built params w).2)
  ∧ (exception_of (run params w) = Some AttributeError →
     statusCode (response (world_of (run params w)))
     = statusCode (response w)
     ∧ files (world_of (run params w)) = files (entry params w)
     ∧ instance (world_of (run params w)) = composed params w
     ∧ fileName (instance (world_of (run params w))) = project_path params).
Proof.
  destruct (run_outcome params w) as
    [[Hs ->]|[(Hs & Hp & ->)|[(Hs & Hp & Hr & ->)
    |[(Hs & Hp & Hr & Hnp & msg & ->)
    |[(Hpass & resp & Hb & ->)|(Hpass & resp & b & Hb & ->)]]]]]; simpl.
  - split; [|done]. split; [done|]. intros [Hpass _].
    apply passes_entered in Hpass as (? & _). congruence.
  - split; [|done]. split; [done|]. intros [Hpass _].
    apply passes_entered in Hpass as (_ & ? & _). congruence.
  - split; [|done]. split; [done|]. intros [Hpass _].
    apply passes_entered in Hpass as (_ & _ & ?). congruence.
  - split; [|done]. split; [done|]. intros [Hpass _]. congruence.
  - split; [|done]. split; [done|]. rewrite Hb. by intros [_ [? ?]].
  - split; [split; [|done]; intros _; split; [done|]; rewrite Hb; by eexists|].
    intros _. split.
    + unfold built in Hb. apply build_layers_status in Hb. rewrite Hb.
      by rewrite entry_response.
    + split; [done|]. split; [done|]. apply composed_fileName.
Qed.

(** *** Refusals *)

(** X11: a request passes validation and the layer loop reaches a source
    that gives no layer, or a layer that is not valid.  The request is
    answered with status 400 and the message of the first such source;
    the files are as validation left them, but the shared project
    instance is left as it was opened for the request: named after the
    project file and, on an update, holding what was read from it. *)
Theorem unusable_source_refused params w k n s :
  passes params w = true →
  request_names params !! k = Some n →
  request_sources params !! k = Some s →
  refused (layer_from_source k s n) = true →
  (∀ j n' s', (j < k)%nat →
     request_names params !! j = Some n' →
     request_sources params !! j = Some s' →
     refused (layer_from_source j s' n') = false) →
  ∃ w', run params w = Returned w'
        ∧ statusCode (response w') = Some 400
        ∧ last (body (response w'))
          = Some (refusal_message (layer_from_source k s n) s)
        ∧ files w' = files (entry params w)
        ∧ nothing_written w w'
        ∧ instance w' = opened params w
        ∧ fileName (instance w') = project_path params.
Proof.
  intros Hpass Hn Hs Hr Hbefore.
  destruct (build_layers_refused (files (entry params w))
              (zip (request_names params) (request_sources params))
              0 (mkBuilt [] [] [] []) (response (entry params w)) k n s)
    as [resp0 Hb].
  - rewrite lookup_zip_with, Hn. simpl. by rewrite Hs.
  - done.
  - intros j n' s' Hj Hp. simpl.
    rewrite lookup_zip_with in Hp.
    destruct (request_names params !! j) as [n1|] eqn:Hn1; [|done].
    destruct (request_sources params !! j) as [s1|] eqn:Hs1; [|done].
    simpl in Hp. injection Hp as <- <-. by apply Hbefore.
  - simpl in Hb. rewrite (passes_refused_run _ _ _ Hpass Hb).
    eexists. split; [done|]. simpl.
    split; [done|]. split; [by rewrite last_snoc|]. split; [done|].
    split; [by apply (entry_nothing_written params)|].
    split; [done|]. apply open_project_fileName.
Qed.

(** X12: a MAPCOMPOSITION request is answered with status 400 exactly
    when PROJECT is missing or empty or, [os.remove] not raising at line
    107, when it does not pass validation or the layer loop refuses one
    of its sources; it ends with [OSError] exactly when PROJECT is given
    and [os.remove] raises. *)
Theorem status_400_iff params w :
  service_requested params = true →
  ((∃ w', run params w = Returned w'
          ∧ statusCode (response w') = Some 400)
   ↔ Str.truthy (params !! "PROJECT") = false
     ∨ (removal_raises params w = false
        ∧ (passes params w = false
           ∨ ∃ k n s, request_names params !! k = Some n
                      ∧ request_sources params !! k = Some s
                      ∧ refused (layer_from_source k s n) = true)))
  ∧ (exception_of (run params w) = Some OSError
     ↔ Str.truthy (params !! "PROJECT") = true
       ∧ removal_raises params w = true).
Proof.
  intros Hs.
  destruct (run_outcome params w) as
    [[Hs' _]|[(_ & Hp & ->)|[(_ & Hp & Hr & ->)
    |[(_ & Hp & Hr & Hnp & msg & ->)
    |[(Hpass & resp & Hb & ->)|(Hpass & resp & b & Hb & ->)]]]]];
    [congruence|..]; simpl.
  - split; [|split; [done | intros [? _]; congruence]].
    split; [by left|]. intros _. by eexists.
  - split; [|done]. split; [by intros (? & ? & _)|].
    intros [?|[? _]]; congruence.
  - split; [|split; [done | intros [_ ?]; congruence]].
    split; [intros _; right; split; [done | by left]|].
    intros _. by eexists.
  - destruct (passes_entered _ _ Hpass) as (_ & Hp & Hr).
    split; [|split; [done | intros [_ ?]; congruence]].
    split; [|intros _; eexists; split; [done|];
             by apply (build_layers_status _ _ _ _ _ _ _ Hb)].
    intros _. right. split; [done|]. right.
    destruct (build_layers_None _ _ _ _ _ _ Hb) as (k & n & s & Hk & Hrf).
    rewrite lookup_zip_with in Hk.
    destruct (request_names params !! k) as [n1|] eqn:Hn1; [|done].
    destruct (request_sources params !! k) as [s1|] eqn:Hs1; [|done].
    simpl in Hk. injection Hk as <- <-. by exists k, n1, s1.
  - destruct (passes_entered _ _ Hpass) as (_ & Hp & Hr).
    split; [|split; [done | intros [_ ?]; congruence]].
    split; [by intros (? & ? & _)|].
    intros [?|[_ [?|(k & n & s & Hn & Hsrc & Hrf)]]]; [congruence..|].
    exfalso.
    destruct (build_layers_Some _ _ _ _ _ _ _ Hb)
      as (new & _ & _ & _ & _ & _ & Hall).
    destruct (Hall k n s) as (l & Hl & Hvalid & _).
    { rewrite lookup_zip_with, Hn. simpl. by rewrite Hsrc. }
    simpl in Hl. rewrite Hl in Hrf. simpl in Hrf. by rewrite Hvalid in Hrf.
Qed.

Lemma validate_sources_first fs before s after :
  (∀ s', s' ∈ before →
         validate_source_uri s' = true
         ∧ (is_file_path s' = true → file_exists s' fs = true)) →
  validate_source_uri s = false
  ∨ (is_file_path s = true ∧ file_exists s fs = false) →
  valid_sources fs (before ++ s :: after)
  = Some (validation_message validate_source_uri s).
Proof.
  intros Hbefore Hs. induction before as [|s0 before IH]; simpl.
  - unfold validation_message.
    destruct (validate_source_uri s); simpl; [|done].
    destruct Hs as [|[-> ->]]; done.
  - destruct (Hbefore s0) as [-> Hfile]; [by left|]. simpl.
    destruct (is_file_path s0); simpl.
    + rewrite Hfile by done. simpl. apply IH.
      intros s' Hs'. apply Hbefore. by right.
    + apply IH. intros s' Hs'. apply Hbefore. by right.
Qed.

(** X18: validation reports the first source it refuses, and that one
    only: past line 107 the request is answered with status 400 and the
    message of that source, [invalid parameter] when
    [validate_source_uri] refuses it, [file not found] when it is a file
    path with nothing at it.  Paths are looked up after the project file
    of an overwriting request was removed. *)
Theorem first_refused_source_reported params w before s after :
  service_requested params = true →
  Str.truthy (params !! "PROJECT") = true →
  removal_raises params w = false →
  Str.truthy (sources_parameter params) = true →
  request_sources params = before ++ s :: after →
  (∀ s', s' ∈ before →
         validate_source_uri s' = true
         ∧ (is_file_path s' = true
            → file_exists s' (files (entry params w)) = true)) →
  validate_source_uri s = false
  ∨ (is_file_path s = true
     ∧ file_exists s (files (entry params w)) = false) →
  ∃ w', run params w = Returned w'
        ∧ statusCode (response w') = Some 400
        ∧ body (response w')
          = body (response w) ++ [validation_message validate_source_uri s]
        ∧ files w' = files (entry params w)
        ∧ instance w' = instance w.
Proof.
  intros Hs Hp Hr Hsrc Hsources Hbefore Hrefused.
  rewrite run_entered, Hsrc by done. simpl.
  rewrite Hsources, (validate_sources_first _ _ _ _ Hbefore Hrefused).
  destruct (rejected_at_entry params w
              (validation_message validate_source_uri s))
    as (w' & -> & ? & ? & ? & ? & _).
  by exists w'.
Qed.

(** *** The response and the files *)

Lemma build_layers_body fs pairs : ∀ i acc resp resp' b,
  build_layers layer_from_source fs i pairs acc resp = (resp', Some b) →
  ∃ new,
    qgis_layers b = qgis_layers acc ++ new
    ∧ body resp'
      = body resp
        ++ (invalid_type <$> filter (λ l, layer_kind l = OtherLayer) new).
Proof.
  induction pairs as [|[n s] pairs IH]; intros i acc resp resp' b; simpl.
  - intros [= <- <-]. exists []. by rewrite !app_nil_r.
  - destruct (layer_from_source i s n) as [l|]; [|done].
    destruct (isValid l); simpl; [|done].
    intros (new & Hq & Hbody)%IH. simpl in Hq.
    exists (renameStyle "" "default" l :: new).
    split; [by rewrite Hq, <- app_assoc|].
    rewrite Hbody, filter_cons, renameStyle_kind.
    assert (invalid_type (renameStyle "" "default" l) = invalid_type l) as Hi.
    { unfold invalid_type.
      by destruct (renameStyle_printed "" "default" l) as [-> ->]. }
    destruct (layer_kind l); simpl;
      rewrite ?decide_True, ?decide_False by done; simpl;
      by rewrite <- ?app_assoc, ?Hi.
Qed.

(** X21: the response when line 246 is reached: the content type is set
    and the other headers are as they were, no status is set, and the
    body got one message for each layer built that is neither a raster
    nor a vector layer, naming the layer and its type, in input order.
    Such a layer is reported, not refused; no [OK] is written. *)
Theorem response_at_line_246 params w :
  passes params w = true →
  is_Some (built params w).2 →
  headers (response (world_of (run params w)))
  = <["Content-type" := "text/plain; charset=utf-8"]> (headers (response w))
  ∧ statusCode (response (world_of (run params w)))
    = statusCode (response w)
  ∧ body (response (world_of (run params w)))
    = body (response w)
      ++ (invalid_type
            <$> filter (λ l, layer_kind l = OtherLayer) (incoming params w)).
Proof.
  intros Hpass [b Hb].
  destruct (built params w) as [resp ob] eqn:Hbuilt. simpl in Hb. subst ob.
  rewrite (passes_built_run _ _ _ _ Hpass Hbuilt). simpl.
  unfold incoming. rewrite Hbuilt. simpl. unfold built in Hbuilt.
  split; [|split].
  - rewrite (build_layers_headers _ _ _ _ _ _ _ Hbuilt).
    by rewrite entry_response.
  - apply build_layers_status in Hbuilt. rewrite Hbuilt.
    by rewrite entry_response.
  - destruct (build_layers_body _ _ _ _ _ _ _ Hbuilt) as (new & Hq & ->).
    simpl in Hq. by rewrite Hq, entry_response.
Qed.

(** X23: whatever the request and however the handler ends, a path other
    than the project path holds after the request what it held before. *)
Theorem other_files_untouched params w q :
  q ≠ project_path params →
  files (world_of (run params w)) !! q = files w !! q.
Proof.
  intros Hq.
  destruct (run_outcome params w) as
    [[_ ->]|[(_ & _ & ->)|[(_ & _ & _ & ->)|[(_ & _ & _ & _ & msg & ->)
    |[(_ & resp & _ & ->)|(_ & resp & b & _ & ->)]]]]]; simpl;
    try done; by apply entry_lookup.
Qed.

(** X26: no request is answered with status 200 and no request writes a
    file: when the handler ends, the status is the one it found or 400,
    and every file on disk was there before, with the same content. *)
Theorem no_status_200_nothing_written params w :
  (statusCode (response (world_of (run params w)))
   = statusCode (response w)
   ∨ statusCode (response (world_of (run params w))) = Some 400)
  ∧ nothing_written w (world_of (run params w)).
Proof.
  destruct (run_outcome params w) as
    [[_ ->]|[(_ & _ & ->)|[(_ & _ & _ & ->)|[(_ & _ & _ & _ & msg & ->)
    |[(_ & resp & Hb & ->)|(_ & resp & b & Hb & ->)]]]]]; simpl.
  - split; [by left | by intros path f].
  - split; [by right | by intros path f].
  - split; [by left | by intros path f].
  - split; [by right | by apply (entry_nothing_written params)].
  - split; [right; by apply (build_layers_status _ _ _ _ _ _ _ Hb)|].
    by apply (entry_nothing_written params).
  - split; [|by apply (entry_nothing_written params)].
    left. unfold built in Hb. apply build_layers_status in Hb.
    by rewrite Hb, entry_response.
Qed.

(** *** The service lists *)

Lemma reconcile_step_entries st n st' scope key :
  scope ≠ "WFSLayersPrecision" →
  reconcile_step st n = Some st' →
  entries (merged st') !! (scope, key) = entries (merged st) !! (scope, key).
Proof.
  intros Hscope. unfold reconcile_step.
  destruct (decide_layer (merged st) n) as [|c|c].
  - intros [= <-]. simpl. by rewrite addMapLayer_entries.
  - destruct (layer_kind n); intros Hst; by simplify_option_eq.
  - intros [= <-]. simpl. rewrite addMapLayer_entries. simpl.
    destruct (layer_kind n); simpl; [done| |done].
    apply lookup_delete_ne. by intros [= <- _].
Qed.

Lemma reconcile_entries news : ∀ st st' e scope key,
  scope ≠ "WFSLayersPrecision" →
  reconcile st news = (st', e) →
  entries (merged st') !! (scope, key) = entries (merged st) !! (scope, key).
Proof.
  induction news as [|n rest IH]; intros st st' e scope key Hscope; simpl.
  - by intros [= <- _].
  - destruct (reconcile_step st n) as [st1|] eqn:Hstep;
      [|by intros [= <- _]].
    intros Hrec. rewrite (IH _ _ _ _ _ Hscope Hrec).
    by apply (reconcile_step_entries st n).
Qed.

(** X27: the service lists are never written.  When line 246 is reached
    the WFSLayers and WCSLayers properties of the project instance are
    those of the project as it was opened, whatever vector and raster
    layers the request registered. *)
Theorem service_lists_left_as_opened params w scope :
  passes params w = true →
  is_Some (built params w).2 →
  scope ∈ ["WFSLayers"; "WCSLayers"] →
  readEntry scope "/" (instance (world_of (run params w)))
  = readEntry scope "/" (opened params w).
Proof.
  intros Hpass [b Hb] Hscope.
  destruct (built params w) as [resp ob] eqn:Hbuilt. simpl in Hb. subst ob.
  rewrite (run_instance_built _ _ _ _ Hpass Hbuilt).
  assert (scope ≠ "WFSLayersPrecision") as Hne.
  { intros ->. by repeat (apply elem_of_cons in Hscope as [?|Hscope]);
      try apply elem_of_nil in Hscope. }
  unfold composed, readEntry. rewrite (registered_built _ _ _ _ Hbuilt).
  unfold register_layers. destruct (overwrite params); simpl.
  - by rewrite addMapLayers_entries.
  - destruct (reconcile _ _) as [st e] eqn:Hrec. simpl.
    by rewrite (reconcile_entries _ _ _ _ _ _ Hne Hrec).
Qed.

(** *** The parameters of the request *)

(** What the handler makes of the request decides how it ends. *)
Lemma run_ext_read params params' w :
  service_requested params' = service_requested params →
  params' !! "PROJECT" = params !! "PROJECT" →
  overwrite params' = overwrite params →
  params' !! "NAMES" = params !! "NAMES" →
  sources_parameter params' = sources_parameter params →
  run params' w = run params w.
Proof.
  intros Hs Hp Ho Hn Hsrc.
  unfold executeRequest, remove_overwritten, project_path, request_sources,
    layer_names.
  by rewrite Hs, Hp, Ho, Hn, Hsrc.
Qed.

Lemma run_ext params params' w :
  params' !! "SERVICE" = params !! "SERVICE" →
  params' !! "PROJECT" = params !! "PROJECT" →
  params' !! "OVERWRITE" = params !! "OVERWRITE" →
  params' !! "NAMES" = params !! "NAMES" →
  sources_parameter params' = sources_parameter params →
  run params' w = run params w.
Proof.
  intros Hs Hp Ho Hn Hsrc. apply run_ext_read; try done.
  - unfold service_requested. by rewrite Hs.
  - unfold overwrite. by rewrite Ho.
Qed.

(** X16: FILES is read only when SOURCES is missing or empty, and then
    it is read as SOURCES would be: with a non-empty SOURCES a request
    is handled as if FILES was not given, and without one a request
    with FILES is handled as the request with that value for SOURCES. *)
Theorem files_is_legacy_sources params w v :
  v ≠ "" →
  run (<["SOURCES" := v]> params) w
  = run (<["SOURCES" := v]> (delete "FILES" params)) w
  ∧ (Str.truthy (params !! "SOURCES") = false →
     run (<["FILES" := v]> params) w = run (<["SOURCES" := v]> params) w).
Proof.
  intros Hv%truthy_nonempty. split.
  - apply run_ext;
      try (rewrite !lookup_insert_ne, ?lookup_delete_ne by done; done).
    unfold sources_parameter. rewrite !lookup_insert_eq. by rewrite Hv.
  - intros Hsrc. apply run_ext;
      try (rewrite !lookup_insert_ne by done; done).
    unfold sources_parameter.
    rewrite (lookup_insert_ne _ "FILES" "SOURCES") by done.
    rewrite !lookup_insert_eq. by rewrite Hsrc, Hv.
Qed.

(** X17: the handler reads SERVICE, PROJECT, OVERWRITE, REMOVEQML,
    SOURCES, FILES and NAMES and nothing else: setting or dropping any
    other parameter changes nothing. *)
Theorem other_parameters_ignored params w k :
  k ∉ read_parameters →
  (∀ v, run (<[k := v]> params) w = run params w)
  ∧ run (delete k params) w = run params w.
Proof.
  intros Hk.
  assert (∀ k', k' ∈ read_parameters → k ≠ k') as Hne
    by (by intros k' Hk' ->).
  assert (∀ params',
            (∀ k', k' ∈ read_parameters → params' !! k' = params !! k') →
            run params' w = run params w) as Hext.
  { intros params' Heq. unfold read_parameters in Heq.
    apply run_ext; try (apply Heq; by repeat constructor).
    unfold sources_parameter. rewrite !Heq; [done|by repeat constructor..]. }
  split; [intros v|]; apply Hext; intros k' Hk'.
  - apply lookup_insert_ne. by apply Hne.
  - apply lookup_delete_ne. by apply Hne.
Qed.

(** X25: REMOVEQML is read and has no effect: line 266, the one place
    that looks at the flag, is never reached.  Whatever its value, set or
    not, the request is handled the same. *)
Theorem removeqml_has_no_effect params w :
  (∀ v, run (<["REMOVEQML" := v]> params) w = run params w)
  ∧ run (delete "REMOVEQML" params) w = run params w.
Proof.
  split; [intros v|]; apply run_ext;
    rewrite ?lookup_insert_ne, ?lookup_delete_ne by done; try done;
    unfold sources_parameter;
    by rewrite ?lookup_insert_ne, ?lookup_delete_ne by done.
Qed.

(** X24: the letter case of the values of SERVICE and OVERWRITE does not
    matter: two values that [str.upper] makes equal give the same
    handling of the request (for OVERWRITE, two non-empty values). *)
Theorem letter_case_ignored params w s s' :
  upper s = upper s' →
  run (<["SERVICE" := s]> params) w = run (<["SERVICE" := s']> params) w
  ∧ (s ≠ "" → s' ≠ "" →
     run (<["OVERWRITE" := s]> params) w
     = run (<["OVERWRITE" := s']> params) w).
Proof.
  intros Hu. split; [|intros Hs Hs'];
    apply run_ext_read;
    unfold service_requested, overwrite, sources_parameter, parse_flag;
    rewrite ?lookup_insert_eq, ?lookup_insert_ne by done;
    rewrite ?truthy_nonempty by done; simpl; by rewrite ?Hu.
Qed.

(** *** Closed forms of the registry *)

Lemma opened_overwrite params w :
  overwrite params = true →
  mapLayers (opened params w) = mapLayers (instance w).
Proof.
  intros How. unfold opened, open_project.
  rewrite How, andb_false_r. simpl. by rewrite entry_instance.
Qed.

Lemma incoming_length params w resp b :
  passes params w = true →
  built params w = (resp, Some b) →
  length (incoming params w) = length (request_sources params).
Proof.
  intros (_ & _ & _ & _ & _ & Hn)%passes_validation_true Hb.
  unfold incoming. rewrite Hb. simpl. unfold built in Hb.
  destruct (build_layers_Some _ _ _ _ _ _ _ Hb)
    as (new & Hq & _ & _ & _ & Hlen & _).
  simpl in Hq. rewrite Hq, Hlen, length_zip_with.
  apply layer_names_length in Hn. lia.
Qed.

(** X1: when the shared project instance holds no layer as the request
    arrives, a request that overwrites, passes validation and has all
    its layers built leaves in the project instance exactly the layers
    built, one for each entry of the sources (layer ids pairwise
    distinct). *)
Theorem overwrite_from_clear_instance params w :
  passes params w = true →
  is_Some (built params w).2 →
  overwrite params = true →
  mapLayers (instance w) = [] →
  NoDup (layer_ids (incoming params w)) →
  mapLayers (instance (world_of (run params w))) ≡ₚ incoming params w
  ∧ length (incoming params w) = length (request_sources params).
Proof.
  intros Hpass [b Hb] How Hclear Hnd.
  destruct (built params w) as [resp ob] eqn:Hbuilt. simpl in Hb. subst ob.
  split; [|by apply (incoming_length _ _ resp b)].
  rewrite (run_instance_built _ _ _ _ Hpass Hbuilt).
  pose proof (opened_overwrite _ w How) as Hopen.
  rewrite (composed_registry _ _ _ _ Hbuilt Hnd), Hopen, Hclear, How; [done|].
  rewrite Hopen, Hclear. by intros x _ ?%elem_of_nil.
Qed.

(** X4: an update leaves in the project instance every layer of the
    project read whose name is not the name of an incoming layer (layer
    ids pairwise distinct, those of the incoming layers new). *)
Theorem update_keeps_other_layers params w existing l :
  passes params w = true →
  overwrite params = false →
  files w !! project_path params = Some (ProjectFile existing) →
  is_Some (built params w).2 →
  NoDup (layer_ids (mapLayers existing)) →
  NoDup (layer_ids (incoming params w)) →
  (∀ x, x ∈ layer_ids (incoming params w) →
        x ∉ layer_ids (mapLayers existing)) →
  l ∈ mapLayers existing →
  (∀ n, n ∈ incoming params w → layer_name l ≠ layer_name n) →
  l ∈ mapLayers (instance (world_of (run params w))).
Proof.
  intros Hpass How Hfile [b Hb] He Hnd Hfresh Hl Hname.
  destruct (built params w) as [resp ob] eqn:Hbuilt. simpl in Hb. subst ob.
  rewrite (run_instance_built _ _ _ _ Hpass Hbuilt).
  pose proof (opened_update _ _ _ How Hfile) as Hopen.
  rewrite (composed_registry _ _ _ _ Hbuilt Hnd), Hopen, How; simpl.
  - by apply foldl_update_keeps.
  - by rewrite Hopen.
Qed.

(** X14: when the incoming layers have pairwise distinct names, none of
    them the name of a layer of the project as it was opened, the project
    instance holds at line 246 the layers of the opened project and the
    incoming layers, each once (layer ids distinct, those of the incoming
    layers new). *)
Theorem new_names_are_added params w :
  passes params w = true →
  is_Some (built params w).2 →
  NoDup (layer_ids (incoming params w)) →
  (∀ x, x ∈ layer_ids (incoming params w) →
        x ∉ layer_ids (mapLayers (opened params w))) →
  NoDup (layer_name <$> incoming params w) →
  (∀ l n, l ∈ mapLayers (opened params w) →
          n ∈ incoming params w →
          layer_name l ≠ layer_name n) →
  mapLayers (instance (world_of (run params w)))
  ≡ₚ mapLayers (opened params w) ++ incoming params w.
Proof.
  intros Hpass [b Hb] Hids Hfresh Hnames Hnew.
  destruct (built params w) as [resp ob] eqn:Hbuilt. simpl in Hb. subst ob.
  rewrite (run_instance_built _ _ _ _ Hpass Hbuilt).
  rewrite (composed_registry _ _ _ _ Hbuilt Hids Hfresh).
  unfold registry_for. destruct (overwrite params); [done|].
  by rewrite foldl_update_new.
Qed.

(** X15: an update whose incoming layers all come under the name and
    with the source of a layer of the project read leaves the layer
    registry as it was read: no layer is added, removed or replaced. *)
Theorem resubmitted_sources_keep_registry params w :
  passes params w = true →
  overwrite params = false →
  is_Some (built params w).2 →
  (∀ n, n ∈ incoming params w →
        (∃ c, c ∈ mapLayers (opened params w)
              ∧ layer_name c = layer_name n)
        ∧ ∀ c, c ∈ mapLayers (opened params w) →
               layer_name c = layer_name n →
               layer_source c = layer_source n) →
  mapLayers (instance (world_of (run params w)))
  = mapLayers (opened params w).
Proof.
  intros Hpass How [b Hb] Hkept.
  destruct (built params w) as [resp ob] eqn:Hbuilt. simpl in Hb. subst ob.
  rewrite (run_instance_built _ _ _ _ Hpass Hbuilt).
  destruct (built_Some _ _ _ _ Hbuilt) as (Hq & _).
  unfold composed. rewrite (registered_built _ _ _ _ Hbuilt).
  unfold register_layers. rewrite How, Hq.
  destruct (reconcile _ _) as [st e] eqn:Hrec. simpl.
  rewrite (reconcile_all_kept _ _ _ _ Hrec); [done|].
  intros n Hn. simpl. destruct (Hkept n Hn). by apply decide_layer_kept.
Qed.

End Properties.

(** ** The properties on concrete requests *)

Ltac computed := vm_compute; reflexivity.
Ltac by_computation := apply (bool_decide_unpack _); vm_compute; exact I.
Ltac in_list :=
  vm_compute;
  repeat first [apply list_elem_of_here | apply list_elem_of_further].

Abbreviation Demo_built := (built Demo.upper Demo.layer_from_source).
Abbreviation Demo_incoming := (incoming Demo.upper Demo.layer_from_source).
Abbreviation Demo_opened := (opened Demo.upper).
Abbreviation Demo_entry := (entry Demo.upper).
Abbreviation Demo_overwrite := (overwrite Demo.upper).
Abbreviation after := (fun params w => world_of (Demo.run params w)).

(** *** Strings *)

Lemma default_name_of_file_witness :
  default_names ["/path" +:+ "/" +:+ "1" +:+ "." +:+ "shp"] = ["1"].
Proof.
  apply (StrFacts.default_name_of_file "/path" "1" "shp" 0 "1"%char).
  - computed.
  - computed.
  - computed.
  - simpl. lia.
  - computed.
  - discriminate.
Defined.

Lemma qml_of_file_witness :
  qml_of ("/path" +:+ "/" +:+ "1" +:+ "." +:+ "shp")
  = "/path" +:+ "/" +:+ "1" +:+ ".qml".
Proof.
  apply (StrFacts.qml_of_file "/path" "1" "shp" 0 "1"%char).
  - computed.
  - computed.
  - computed.
  - simpl. lia.
  - computed.
  - discriminate.
Defined.

Example upper_true : Demo.upper "true" = "TRUE".
Proof. reflexivity. Qed.

Example split_sources :
  Str.split ";"%char "/path/1.shp;/path/2.shp;/path/3.asc"
  = ["/path/1.shp"; "/path/2.shp"; "/path/3.asc"].
Proof. reflexivity. Qed.

Example splitext_basename_shp :
  Str.splitext (Str.basename "/path/1.shp") = ("1", ".shp").
Proof. reflexivity. Qed.

Example splitext_hidden : Str.splitext "/d/.profile" = ("/d/.profile", "").
Proof. reflexivity. Qed.

Example splitext_dir_dot : Str.splitext "/d.x/file" = ("/d.x/file", "").
Proof. reflexivity. Qed.

Example splitext_two : Str.splitext "/d/a.tar.gz" = ("/d/a.tar", ".gz").
Proof. reflexivity. Qed.

(** Two sources and two names. *)
Lemma joined_entries_are_read_back_witness :
  request_sources
    (<["NAMES" := (join ";" ["roads"; "relief"])]>
       (<["SOURCES" := (join ";" ["/d/a.shp"; "/d/c.tif"])]> Demo.create))
  = ["/d/a.shp"; "/d/c.tif"]
  ∧ request_names
      (<["NAMES" := (join ";" ["roads"; "relief"])]>
         (<["SOURCES" := (join ";" ["/d/a.shp"; "/d/c.tif"])]> Demo.create))
    = ["roads"; "relief"].
Proof.
  apply (joined_entries_are_read_back Demo.create
           ["/d/a.shp"; "/d/c.tif"] ["roads"; "relief"]).
  - by_computation.
  - by_computation.
  - by_computation.
  - by_computation.
  - done.
Defined.

Example join_sources :
  join ";" ["/d/a.shp"; "/d/c.tif"] = "/d/a.shp;/d/c.tif".
Proof. computed. Qed.

(** *** Requests that are not composed *)

Lemma other_service_only_sets_header_witness :
  ∃ w', Demo.run Demo.other_service Demo.fresh = Returned w'
        ∧ headers (response w')
          = <["Content-type" := "text/plain; charset=utf-8"]>
              (headers (response Demo.fresh))
        ∧ statusCode (response w') = statusCode (response Demo.fresh)
        ∧ body (response w') = body (response Demo.fresh)
        ∧ files w' = files Demo.fresh
        ∧ instance w' = instance Demo.fresh
        ∧ trace w' = trace Demo.fresh.
Proof.
  apply (other_service_only_sets_header Demo.upper Demo.validate_source_uri
           Demo.is_file_path Demo.layer_from_source Demo.other_service
           Demo.fresh).
  vm_compute. discriminate.
Defined.

(** One source, two names. *)
Lemma invalid_request_rejected_witness :
  ∃ w', Demo.run Demo.names_mismatch Demo.fresh = Returned w'
        ∧ statusCode (response w') = Some 400
        ∧ (∃ msg, body (response w') = body (response Demo.fresh) ++ [msg])
        ∧ instance w' = instance Demo.fresh
        ∧ nothing_written Demo.fresh w'.
Proof.
  apply (invalid_request_rejected Demo.upper Demo.validate_source_uri
           Demo.is_file_path Demo.layer_from_source Demo.names_mismatch
           Demo.fresh).
  - computed.
  - right. split; [computed|].
    do 3 right. split; [computed | vm_compute; lia].
Defined.

(** C4 fails as stated: the project path [/d] is a directory and
    OVERWRITE is set.  NAMES has two entries for one source, but
    [os.remove] raises at line 107, before the names are looked at: the
    handler ends with the exception and sets no status. *)
Lemma overwrite_directory_raises :
  Demo.upper (default "" (Demo.overwrite_directory !! "SERVICE"))
  = "MAPCOMPOSITION"
  ∧ Str.truthy (Demo.overwrite_directory !! "NAMES") = true
  ∧ length (Str.split ";"%char
              (default "" (Demo.overwrite_directory !! "NAMES")))
    ≠ length (request_sources Demo.overwrite_directory)
  ∧ files Demo.fresh !! "/d" = Some Directory
  ∧ Demo.run Demo.overwrite_directory Demo.fresh
    = Raised OSError (with_header Demo.fresh)
  ∧ statusCode (response (after Demo.overwrite_directory Demo.fresh)) = None
  ∧ ¬ ∃ w', Demo.run Demo.overwrite_directory Demo.fresh = Returned w'
            ∧ statusCode (response w') = Some 400.
Proof.
  assert (Demo.run Demo.overwrite_directory Demo.fresh
          = Raised OSError (with_header Demo.fresh)) as Hrun by computed.
  split; [computed|]. split; [computed|]. split; [vm_compute; lia|].
  split; [computed|]. split; [done|]. split; [computed|].
  rewrite Hrun. by intros (w' & ? & _).
Qed.


(** The same request when the project file may not be removed. *)
Example locked_project_raises :
  Demo.run Demo.overwrite_mismatch Demo.with_locked_project
  = Raised OSError (with_header Demo.with_locked_project).
Proof. computed. Qed.

(** [/d/a.shp] gives a layer, [/d/x.csv] gives none. *)
Lemma unusable_source_refused_witness :
  ∃ w', Demo.run Demo.second_unknown Demo.with_project = Returned w'
        ∧ statusCode (response w') = Some 400
        ∧ last (body (response w'))
          = Some (refusal_message
                    (Demo.layer_from_source 1 "/d/x.csv" "x") "/d/x.csv")
        ∧ files w' = files (Demo_entry Demo.second_unknown Demo.with_project)
        ∧ nothing_written Demo.with_project w'
        ∧ instance w' = Demo_opened Demo.second_unknown Demo.with_project
        ∧ fileName (instance w') = project_path Demo.second_unknown.
Proof.
  apply (unusable_source_refused Demo.upper Demo.validate_source_uri
           Demo.is_file_path Demo.layer_from_source Demo.second_unknown
           Demo.with_project 1 "x" "/d/x.csv").
  - computed.
  - computed.
  - computed.
  - computed.
  - intros j n' s' Hj. assert (j = 0%nat) as -> by lia.
    intros [= <-] [= <-]. computed.
Defined.

Example second_unknown_message :
  body (response (after Demo.second_unknown Demo.with_project))
  = ["Invalid format : /d/x.csv"]
  ∧ mapLayers (instance (after Demo.second_unknown Demo.with_project))
    = [Demo.old_a; Demo.old_b].
Proof. split; computed. Qed.

Lemma status_400_iff_witness :
  ((∃ w', Demo.run Demo.second_unknown Demo.with_project = Returned w'
          ∧ statusCode (response w') = Some 400)
   ↔ Str.truthy (Demo.second_unknown !! "PROJECT") = false
     ∨ (removal_raises Demo.upper Demo.second_unknown Demo.with_project
        = false
        ∧ (Demo.passes Demo.second_unknown Demo.with_project = false
           ∨ ∃ k n s, request_names Demo.second_unknown !! k = Some n
                      ∧ request_sources Demo.second_unknown !! k = Some s
                      ∧ refused (Demo.layer_from_source k s n) = true)))
  ∧ (exception_of (Demo.run Demo.second_unknown Demo.with_project)
     = Some OSError
     ↔ Str.truthy (Demo.second_unknown !! "PROJECT") = true
       ∧ removal_raises Demo.upper Demo.second_unknown Demo.with_project
         = true).
Proof.
  apply (status_400_iff Demo.upper Demo.validate_source_uri
           Demo.is_file_path Demo.layer_from_source Demo.second_unknown
           Demo.with_project).
  computed.
Defined.

(** A directory among the sources exists for line 133: it passes
    validation and is refused by the layer loop. *)
Example directory_source_passes_validation :
  Demo.passes (<["SOURCES" := "/d"]> Demo.create) Demo.fresh = true
  ∧ body (response (after (<["SOURCES" := "/d"]> Demo.create) Demo.fresh))
    = ["Invalid format : /d"].
Proof. split; computed. Qed.

(** [/d/none.shp] is reported, [?x] after it is not. *)
Lemma first_refused_source_reported_witness :
  ∃ w', Demo.run Demo.missing_file Demo.fresh = Returned w'
        ∧ statusCode (response w') = Some 400
        ∧ body (response w')
          = body (response Demo.fresh)
            ++ [validation_message Demo.validate_source_uri "/d/none.shp"]
        ∧ files w' = files (Demo_entry Demo.missing_file Demo.fresh)
        ∧ instance w' = instance Demo.fresh.
Proof.
  apply (first_refused_source_reported Demo.upper Demo.validate_source_uri
           Demo.is_file_path Demo.layer_from_source Demo.missing_file
           Demo.fresh ["/d/a.shp"] "/d/none.shp" ["?x"]).
  - computed.
  - computed.
  - computed.
  - computed.
  - computed.
  - apply Forall_forall.
    constructor; [split; [computed | intros _; computed] | constructor].
  - right. split; computed.
Defined.

Example missing_file_message :
  validation_message Demo.validate_source_uri "/d/none.shp"
  = "file not found : /d/none.shp." +:+ nl
  ∧ Demo.validate_source_uri "?x" = false.
Proof. split; computed. Qed.

(** *** Requests that reach line 246 *)

(** The update of the project [a], [b]: [a] comes with its source, [b]
    with another one, [c] is new. *)
Lemma update_reconciles_by_name_witness :
  ReconciledAll (mapLayers Demo.old_project)
    (Demo_incoming Demo.update Demo.with_project)
    (mapLayers (instance (after Demo.update Demo.with_project))).
Proof.
  apply (update_reconciles_by_name Demo.upper Demo.validate_source_uri
           Demo.is_file_path Demo.layer_from_source Demo.update
           Demo.with_project Demo.old_project).
  - computed.
  - computed.
  - computed.
  - by_computation.
  - by_computation.
  - by_computation.
  - apply Forall_forall. by_computation.
Defined.

Example update_registry :
  layer_ids (Demo_incoming Demo.update Demo.with_project)
  = ["a_0"; "b_1"; "c_2"]
  ∧ layer_ids (mapLayers (instance (after Demo.update Demo.with_project)))
    = ["a_old"; "b_1"; "c_2"].
Proof. split; computed. Qed.


Example names_of_create :
  request_sources Demo.create = ["/d/a.shp"; "/d/c.tif"]
  ∧ request_names Demo.create = ["a"; "c"]
  ∧ layer_name <$> Demo_incoming Demo.create Demo.fresh = ["a"; "c"]
  ∧ request_names Demo.update = ["a"; "b"; "c"].
Proof. repeat split; computed. Qed.

Lemma built_layers_carry_default_witness :
  (∀ l, l ∈ Demo_incoming Demo.update Demo.with_project →
     ∃ i s n l0, Demo.layer_from_source i s n = Some l0
                 ∧ l = renameStyle "" "default" l0
                 ∧ "default" ∈ styles l
                 ∧ ("default" ∉ styles l0 → "" ∉ styles l))
  ∧ (∀ l, l ∈ mapLayers (instance (after Demo.update Demo.with_project)) →
       l ∈ mapLayers (Demo_opened Demo.update Demo.with_project)
       ∨ (l ∈ Demo_incoming Demo.update Demo.with_project
          ∧ "default" ∈ styles l)).
Proof.
  apply (built_layers_carry_default Demo.upper Demo.validate_source_uri
           Demo.is_file_path Demo.layer_from_source Demo.update
           Demo.with_project).
  - computed.
  - by_computation.
  - intros i s n l. unfold Demo.layer_from_source.
    repeat case_match; intros [= <-]; left; simpl; apply list_elem_of_here.
Defined.

Example styles_of_update :
  styles <$> mapLayers (instance (after Demo.update Demo.with_project))
  = [["default"]; ["default"]; ["default"]]
  ∧ styles <$> ((λ s, default Demo.old_a (Demo.layer_from_source 0 s "n"))
                  <$> ["/d/a.shp"; "/d/c.tif"])
    = [[""]; [""]].
Proof. split; computed. Qed.

(** Overwriting with one raster source. *)
Lemma overwrite_from_clear_instance_witness :
  mapLayers (instance (after Demo.overwrite_raster Demo.with_project))
  ≡ₚ Demo_incoming Demo.overwrite_raster Demo.with_project
  ∧ length (Demo_incoming Demo.overwrite_raster Demo.with_project)
    = length (request_sources Demo.overwrite_raster).
Proof.
  apply (overwrite_from_clear_instance Demo.upper Demo.validate_source_uri
           Demo.is_file_path Demo.layer_from_source Demo.overwrite_raster
           Demo.with_project).
  - computed.
  - by_computation.
  - computed.
  - computed.
  - by_computation.
Defined.

(** An update that adds a raster layer [c] leaves [a] in the project. *)
Lemma update_keeps_other_layers_witness :
  Demo.old_a ∈ mapLayers (instance (after Demo.add_raster Demo.with_project)).
Proof.
  apply (update_keeps_other_layers Demo.upper Demo.validate_source_uri
           Demo.is_file_path Demo.layer_from_source Demo.add_raster
           Demo.with_project Demo.old_project Demo.old_a).
  - computed.
  - computed.
  - computed.
  - by_computation.
  - by_computation.
  - by_computation.
  - apply Forall_forall. by_computation.
  - in_list.
  - apply Forall_forall. by_computation.
Defined.

(** The raster layer [c] joins [a] and [b]. *)
Lemma new_names_are_added_witness :
  mapLayers (instance (after Demo.add_raster Demo.with_project))
  ≡ₚ mapLayers (Demo_opened Demo.add_raster Demo.with_project)
     ++ Demo_incoming Demo.add_raster Demo.with_project.
Proof.
  apply (new_names_are_added Demo.upper Demo.validate_source_uri
           Demo.is_file_path Demo.layer_from_source Demo.add_raster
           Demo.with_project).
  - computed.
  - by_computation.
  - by_computation.
  - apply Forall_forall. by_computation.
  - by_computation.
  - intros l n Hl. revert n. apply Forall_forall. revert l Hl.
    apply Forall_forall. by_computation.
Defined.

Example raster_added :
  layer_ids (mapLayers (instance (after Demo.add_raster Demo.with_project)))
  = ["a_old"; "b_old"; "c_0"].
Proof. computed. Qed.

(** [a] and [b] submitted again: the layers built for them are dropped. *)
Lemma resubmitted_sources_keep_registry_witness :
  mapLayers (instance (after Demo.resubmit Demo.with_project))
  = mapLayers (Demo_opened Demo.resubmit Demo.with_project).
Proof.
  apply (resubmitted_sources_keep_registry Demo.upper
           Demo.validate_source_uri Demo.is_file_path
           Demo.layer_from_source Demo.resubmit Demo.with_project).
  - computed.
  - computed.
  - by_computation.
  - assert (mapLayers (Demo_opened Demo.resubmit Demo.with_project)
            = [Demo.old_a; Demo.old_b]) as -> by computed.
    apply Forall_forall.
    assert (∀ n, (layer_name n = "a" ∧ layer_source n = "/d/a.shp")
                 ∨ (layer_name n = "b" ∧ layer_source n = "/d/b.shp") →
                 (∃ c, c ∈ [Demo.old_a; Demo.old_b]
                       ∧ layer_name c = layer_name n)
                 ∧ ∀ c, c ∈ [Demo.old_a; Demo.old_b] →
                        layer_name c = layer_name n →
                        layer_source c = layer_source n) as Hkept.
    { intros n [[Hn Hs]|[Hn Hs]]; rewrite Hn, Hs.
      - split; [exists Demo.old_a; split; [in_list | done]|].
        intros c [->|[->|[]%elem_of_nil]%elem_of_cons]%elem_of_cons; done.
      - split; [exists Demo.old_b; split; [in_list | done]|].
        intros c [->|[->|[]%elem_of_nil]%elem_of_cons]%elem_of_cons; done. }
    eapply Forall_impl; [|intros n Hn; apply Hkept, Hn].
    by_computation.
Defined.

(** A mesh among the sources: reported, and registered. *)
Lemma response_at_line_246_witness :
  headers (response (after Demo.with_mesh Demo.fresh))
  = <["Content-type" := "text/plain; charset=utf-8"]>
      (headers (response Demo.fresh))
  ∧ statusCode (response (after Demo.with_mesh Demo.fresh))
    = statusCode (response Demo.fresh)
  ∧ body (response (after Demo.with_mesh Demo.fresh))
    = body (response Demo.fresh)
      ++ (invalid_type
            <$> filter (λ l, layer_kind l = OtherLayer)
                  (Demo_incoming Demo.with_mesh Demo.fresh)).
Proof.
  apply (response_at_line_246 Demo.upper Demo.validate_source_uri
           Demo.is_file_path Demo.layer_from_source Demo.with_mesh
           Demo.fresh).
  - computed.
  - by_computation.
Defined.

Example mesh_reported :
  body (response (after Demo.with_mesh Demo.fresh))
  = ["Invalid type : <QgsMeshLayer: 'm'> - <class 'qgis._core.QgsMeshLayer'>"]
  ∧ layer_ids (mapLayers (instance (after Demo.with_mesh Demo.fresh)))
    = ["a_0"; "m_1"].
Proof. split; computed. Qed.

Lemma service_lists_left_as_opened_witness :
  readEntry "WCSLayers" "/" (instance (after Demo.update Demo.with_project))
  = readEntry "WCSLayers" "/" (Demo_opened Demo.update Demo.with_project).
Proof.
  apply (service_lists_left_as_opened Demo.upper Demo.validate_source_uri
           Demo.is_file_path Demo.layer_from_source Demo.update
           Demo.with_project "WCSLayers").
  - computed.
  - by_computation.
  - in_list.
Defined.

(** *** Parameters *)

(** [FILES] read in place of an empty [SOURCES]. *)
Lemma files_is_legacy_sources_witness :
  Demo.run (<["SOURCES" := "/d/a.shp"]> Demo.legacy) Demo.fresh
  = Demo.run (<["SOURCES" := "/d/a.shp"]> (delete "FILES" Demo.legacy))
      Demo.fresh
  ∧ (Str.truthy (Demo.legacy !! "SOURCES") = false →
     Demo.run (<["FILES" := "/d/a.shp"]> Demo.legacy) Demo.fresh
     = Demo.run (<["SOURCES" := "/d/a.shp"]> Demo.legacy) Demo.fresh).
Proof.
  apply (files_is_legacy_sources Demo.upper Demo.validate_source_uri
           Demo.is_file_path Demo.layer_from_source Demo.legacy Demo.fresh
           "/d/a.shp").
  done.
Defined.

Example legacy_read :
  Str.truthy (Demo.legacy !! "SOURCES") = false
  ∧ request_sources (<["FILES" := "/d/a.shp"]> Demo.legacy) = ["/d/a.shp"]
  ∧ statusCode (response (after Demo.legacy Demo.fresh)) = Some 400.
Proof. repeat split; computed. Qed.

(** A parameter of another service. *)
Lemma other_parameters_ignored_witness :
  (∀ v, Demo.run (<["LAYERS" := v]> Demo.create) Demo.fresh
        = Demo.run Demo.create Demo.fresh)
  ∧ Demo.run (delete "LAYERS" Demo.create) Demo.fresh
    = Demo.run Demo.create Demo.fresh.
Proof.
  apply (other_parameters_ignored Demo.upper Demo.validate_source_uri
           Demo.is_file_path Demo.layer_from_source Demo.create Demo.fresh
           "LAYERS").
  by_computation.
Defined.

(** [true] and [True]. *)
Lemma letter_case_ignored_witness :
  Demo.run (<["SERVICE" := "true"]> Demo.add_raster) Demo.with_project
  = Demo.run (<["SERVICE" := "True"]> Demo.add_raster) Demo.with_project
  ∧ ("true" ≠ "" → "True" ≠ "" →
     Demo.run (<["OVERWRITE" := "true"]> Demo.add_raster) Demo.with_project
     = Demo.run (<["OVERWRITE" := "True"]> Demo.add_raster)
         Demo.with_project).
Proof.
  apply (letter_case_ignored Demo.upper Demo.validate_source_uri
           Demo.is_file_path Demo.layer_from_source Demo.add_raster
           Demo.with_project "true" "True").
  computed.
Defined.

(** The data file [/d/b.shp] through a request that ends with an
    exception. *)
Lemma other_files_untouched_witness :
  files (after Demo.overwrite_raster Demo.with_project) !! "/d/b.shp"
  = files Demo.with_project !! "/d/b.shp".
Proof.
  apply (other_files_untouched Demo.upper Demo.validate_source_uri
           Demo.is_file_path Demo.layer_from_source Demo.overwrite_raster
           Demo.with_project "/d/b.shp").
  by_computation.
Defined.

(** *** Where the handler stops *)

(** C2, on a failing input: the update of the project [a], [b] with the
    sources of [a] (unchanged), [b] (changed) and the raster [c].  The
    layers are registered, and line 246 raises before the service lists
    are written: the project instance has no WCSLayers although it holds
    the raster layer [c_2], its WFSLayers still names the replaced layer
    [b_old] and not [b_1], [b_1] has no precision entry, and the project
    file is the old one. *)
Lemma update_stops_before_service_lists :
  Demo.passes Demo.update Demo.with_project = true
  ∧ exception_of (Demo.run Demo.update Demo.with_project)
    = Some AttributeError
  ∧ layer_ids (mapLayers (instance (after Demo.update Demo.with_project)))
    = ["a_old"; "b_1"; "c_2"]
  ∧ raster_ids (mapLayers (instance (after Demo.update Demo.with_project)))
    = ["c_2"]
  ∧ readEntry "WCSLayers" "/"
      (instance (after Demo.update Demo.with_project)) = None
  ∧ readEntry "WFSLayers" "/"
      (instance (after Demo.update Demo.with_project))
    = Some (VList ["a_old"; "b_old"])
  ∧ readEntry "WFSLayersPrecision" "/b_1"
      (instance (after Demo.update Demo.with_project)) = None
  ∧ files (after Demo.update Demo.with_project) = files Demo.with_project.
Proof. repeat split; computed. Qed.

(** C3, on a failing input: OVERWRITE is set and the project file
    exists.  The file is removed, the layer of the one source is
    registered in memory, and line 246 raises before [project.write()]:
    no status is set and the project file is gone, not rebuilt. *)
Lemma overwrite_removes_and_does_not_rebuild :
  Demo_overwrite Demo.overwrite_raster = true
  ∧ files Demo.with_project !! "/d/p.qgs"
    = Some (ProjectFile Demo.old_project)
  ∧ exception_of (Demo.run Demo.overwrite_raster Demo.with_project)
    = Some AttributeError
  ∧ files (after Demo.overwrite_raster Demo.with_project) !! "/d/p.qgs"
    = None
  ∧ statusCode (response (after Demo.overwrite_raster Demo.with_project))
    = None
  ∧ trace (after Demo.overwrite_raster Demo.with_project)
    = [Removed "/d/p.qgs"].
Proof. repeat split; computed. Qed.

(** The shared project instance is not cleared either: a second
    overwriting request adds its layer to the layers the first one
    left. *)
Example overwrite_adds_to_leftover_layers :
  layer_ids
    (mapLayers
       (instance
          (after Demo.overwrite_raster
             (Demo.next (after Demo.update Demo.with_project)))))
  = ["a_old"; "b_1"; "c_2"; "c_0"].
Proof. computed. Qed.

(** C6, on a failing input: two valid sources, no project file yet.  The
    request passes validation and its layers are built and registered;
    line 246 raises before [project.write()] and [generate_legend]: no
    status is set and the files are as they were, without a project file
    and without a legend image. *)
Lemma create_stops_before_write_and_legends :
  Demo.passes Demo.create Demo.fresh = true
  ∧ layer_ids (Demo_incoming Demo.create Demo.fresh) = ["a_0"; "c_1"]
  ∧ exception_of (Demo.run Demo.create Demo.fresh) = Some AttributeError
  ∧ statusCode (response (after Demo.create Demo.fresh)) = None
  ∧ files (after Demo.create Demo.fresh) = files Demo.fresh
  ∧ files (after Demo.create Demo.fresh) !! "/d/p.qgs" = None.
Proof. repeat split; computed. Qed.

(** C8, on a failing input: REMOVEQML is set and both sources have a
    companion style file.  Line 246 raises before line 266: the companion
    files are still on disk and nothing was removed. *)
Lemma companion_files_are_never_removed :
  remove_qml Demo.upper Demo.remove_styles = true
  ∧ qml_of <$> request_sources Demo.remove_styles
    = ["/d/a.qml"; "/d/b.qml"]
  ∧ files Demo.fresh !! "/d/a.qml" = Some DataFile
  ∧ files Demo.fresh !! "/d/b.qml" = Some DataFile
  ∧ exception_of (Demo.run Demo.remove_styles Demo.fresh)
    = Some AttributeError
  ∧ files (after Demo.remove_styles Demo.fresh) !! "/d/a.qml"
    = Some DataFile
  ∧ files (after Demo.remove_styles Demo.fresh) !! "/d/b.qml"
    = Some DataFile
  ∧ trace (after Demo.remove_styles Demo.fresh) = [].
Proof. repeat split; computed. Qed.
